(** * Path resolution over untyped payloads: [getOrElse.ts]

    A shallow embedding of the resolver of [src/getOrElse.ts] and of its
    later revision (the one that adds the typed helpers [getBooleanOr],
    [getObjectOr], [getStringOr]), together with the part of the JavaScript
    object model the resolver touches: values, heap objects with own
    properties and a prototype link, [typeof], [===], [in], property reads,
    [Object(v)], [String.prototype.split], [Array.prototype.reduce],
    [map] and [find].

    JavaScript code runs against a heap and may throw, so every operation is
    a computation [js A]: a function from the state to a completion (a value
    or a thrown error) and the state afterwards. *)

From Stdlib Require Import ZArith String Ascii SpecFloat.
From stdpp Require Import base option list gmap strings pretty.

Local Open Scope string_scope.

(** ** Values *)

(** Heap addresses of objects. *)
Definition loc := positive.

(** Numbers are IEEE 754 doubles, in the representation of [SpecFloat]. The
    resolver never computes on them. *)
Definition number := spec_float.

Definition number_of_Z (z : Z) : number :=
  match z with
  | Z0 => S754_zero false
  | Zpos p => S754_finite false p 0
  | Zneg p => S754_finite true p 0
  end.

(** A value is a primitive or a reference to a heap object. Strings are
    sequences of one-byte characters. *)
Inductive value : Type :=
| VUndefined
| VNull
| VBoolean (b : bool)
| VNumber (n : number)
| VString (s : string)
| VRef (l : loc).

Definition num (z : Z) : value := VNumber (number_of_Z z).

#[global] Instance number_eq_dec : EqDecision number.
Proof. solve_decision. Defined.

#[global] Instance value_eq_dec : EqDecision value.
Proof. solve_decision. Defined.

(** A property is a data property, or the [__proto__] accessor that
    [Object.prototype] carries, whose getter answers the prototype of the
    object the read started from. Other accessors run user code and are not
    part of the data the resolver is meant for. *)
Inductive property : Type :=
| Data (v : value)
| ProtoGetter.

(** The internal kind of an object: [typeof] tells callable objects from
    the others, [Object(v)] builds the three wrappers. An array is, for all
    the resolver does with it, an ordinary object whose keys are its
    indices and [length]. *)
Inductive object_class : Type :=
| OrdinaryObject
| FunctionObject
| BooleanObject (b : bool)
| NumberObject (n : number)
| StringObject (s : string).

Record object : Type := mkObject {
  obj_class : object_class;
  obj_own : gmap string property;
  obj_proto : value  (* [VNull] or a [VRef] *)
}.

(** The intrinsic objects [Object(v)] and property reads on primitives need. *)
Record intrinsics : Type := mkIntrinsics {
  ObjectPrototype : loc;
  FunctionPrototype : loc;
  BooleanPrototype : loc;
  NumberPrototype : loc;
  StringPrototype : loc
}.

Record state : Type := mkState {
  heap : gmap loc object;
  realm : intrinsics
}.

(** ** Computations *)

Inductive error : Type :=
| TypeError.

Inductive completion (A : Type) : Type :=
| Normal (a : A)
| Throw (e : error).
Arguments Normal {A} a.
Arguments Throw {A} e.

Definition js (A : Type) : Type := state -> completion A * state.

Definition ret {A} (a : A) : js A := fun s => (Normal a, s).

Definition throw {A} (e : error) : js A := fun s => (Throw e, s).

Definition bind {A B} (m : js A) (k : A -> js B) : js B :=
  fun s =>
    match m s with
    | (Normal a, s') => k a s'
    | (Throw e, s') => (Throw e, s')
    end.

Definition gets {A} (f : state -> A) : js A := fun s => (Normal (f s), s).

Notation "'let*' x ':=' m 'in' k" := (bind m (fun x => k))
  (at level 61, x name, m at next level, k at level 200, right associativity,
   format "'[v' 'let*'  x  ':='  m  'in' '/' k ']'").

(** [a && b] where [b] has effects: [b] runs only when [a] holds. *)
Definition and_then (a : bool) (b : js bool) : js bool :=
  if a then b else ret false.

(** ** The object model *)

Definition empty_object : object :=
  {| obj_class := OrdinaryObject; obj_own := ∅; obj_proto := VNull |}.

(** The object at an address. A well-formed heap has no dangling reference;
    so that every operation is total, a dangling one reads as an object
    without properties. *)
Definition deref (h : gmap loc object) (l : loc) : object :=
  default empty_object (h !! l).

(** Search of a key along a prototype chain, starting at the object [v]
    refers to. *)
Fixpoint find_property (fuel : nat) (h : gmap loc object) (v : value)
    (k : string) : option property :=
  match fuel, v with
  | S n, VRef l =>
      match h !! l with
      | Some o =>
          match obj_own o !! k with
          | Some p => Some p
          | None => find_property n h (obj_proto o) k
          end
      | None => None
      end
  | _, _ => None
  end.

(** Own property first, then the chain. A chain never visits an object
    twice (the language refuses to build a cyclic one), so it is no longer
    than the heap is large. *)
Definition lookup_property (h : gmap loc object) (o : object) (k : string)
    : option property :=
  match obj_own o !! k with
  | Some p => Some p
  | None => find_property (size h) h (obj_proto o) k
  end.

(** The addresses a search from [v] visits, in order, up to the end of
    the chain: a value that is not a reference, or a dangling one. *)
Inductive chain (h : gmap loc object) : value -> list loc -> Prop :=
| chain_end v :
    (forall l, v = VRef l -> h !! l = None) -> chain h v []
| chain_step l o ls :
    h !! l = Some o -> chain h (obj_proto o) ls -> chain h (VRef l) (l :: ls).

(** [[HasProperty]]: own or inherited. *)
Definition HasProperty (h : gmap loc object) (o : object) (k : string) : bool :=
  match lookup_property h o k with
  | Some _ => true
  | None => false
  end.

(** [[Get]]: [undefined] when the key is nowhere on the chain. *)
Definition Get (h : gmap loc object) (o : object) (k : string) : value :=
  match lookup_property h o k with
  | Some (Data v) => v
  | Some ProtoGetter => obj_proto o
  | None => VUndefined
  end.

Definition number_of_nat (n : nat) : number := number_of_Z (Z.of_nat n).

(** Own properties of a String object: [length] and one key per index. *)
Definition string_own (s : string) : gmap string property :=
  <["length" := Data (VNumber (number_of_nat (String.length s)))]>
    (list_to_map
       (imap (fun i c => (pretty i, Data (VString (String c EmptyString))))
             (list_ascii_of_string s))).

(** The object a primitive is read through, and the one [Object(v)] makes. *)
Definition wrapper (r : intrinsics) (v : value) : object :=
  match v with
  | VBoolean b =>
      {| obj_class := BooleanObject b; obj_own := ∅;
         obj_proto := VRef (BooleanPrototype r) |}
  | VNumber n =>
      {| obj_class := NumberObject n; obj_own := ∅;
         obj_proto := VRef (NumberPrototype r) |}
  | VString s =>
      {| obj_class := StringObject s; obj_own := string_own s;
         obj_proto := VRef (StringPrototype r) |}
  | _ =>
      {| obj_class := OrdinaryObject; obj_own := ∅;
         obj_proto := VRef (ObjectPrototype r) |}
  end.

Definition is_callable (o : object) : bool :=
  match obj_class o with
  | FunctionObject => true
  | _ => false
  end.

(** [typeof v] *)
Definition typeof_in (h : gmap loc object) (v : value) : string :=
  match v with
  | VUndefined => "undefined"
  | VNull => "object"
  | VBoolean _ => "boolean"
  | VNumber _ => "number"
  | VString _ => "string"
  | VRef l => if is_callable (deref h l) then "function" else "object"
  end.

Definition typeof (v : value) : js string :=
  gets (fun s => typeof_in (heap s) v).

(** [a === b] *)
Definition strict_eq (a b : value) : bool :=
  match a, b with
  | VUndefined, VUndefined => true
  | VNull, VNull => true
  | VBoolean x, VBoolean y => Bool.eqb x y
  | VNumber x, VNumber y => SFeqb x y
  | VString x, VString y => String.eqb x y
  | VRef x, VRef y => Pos.eqb x y
  | _, _ => false
  end.

(** [a !== b] *)
Definition strict_neq (a b : value) : bool := negb (strict_eq a b).

(** [k in v]: a [TypeError] unless [v] is an object. *)
Definition js_in (k : string) (v : value) : js bool :=
  match v with
  | VRef l => gets (fun s => HasProperty (heap s) (deref (heap s) l) k)
  | _ => throw TypeError
  end.

(** [v[k]]: a [TypeError] on [undefined] and [null]; a primitive is read
    through its wrapper. *)
Definition js_get (v : value) (k : string) : js value :=
  match v with
  | VUndefined | VNull => throw TypeError
  | VRef l => gets (fun s => Get (heap s) (deref (heap s) l) k)
  | _ => gets (fun s => Get (heap s) (wrapper (realm s) v) k)
  end.

(** Allocation of a new object. *)
Definition alloc (o : object) : js value :=
  fun s =>
    let l := fresh (dom (heap s)) in
    (Normal (VRef l), {| heap := <[l := o]> (heap s); realm := realm s |}).

(** [Object(v)]: an object is returned as it is, [undefined] and [null]
    give a new empty object, another primitive its new wrapper. *)
Definition Object_ (v : value) : js value :=
  match v with
  | VRef l => ret (VRef l)
  | _ => fun s => alloc (wrapper (realm s) v) s
  end.

(** [Boolean(v)] *)
Definition ToBoolean (v : value) : bool :=
  match v with
  | VUndefined | VNull => false
  | VBoolean b => b
  | VNumber (S754_zero _) | VNumber S754_nan => false
  | VNumber _ => true
  | VString s => negb (String.eqb s "")
  | VRef _ => true
  end.

(** ** Strings and arrays *)

(** [s.split(sep)] for a one-character separator: the pieces between the
    separators, empty pieces kept. The split of the rest is never empty
    ([string_split_nonempty]), so the last branch is never taken. *)
Fixpoint string_split (sep : ascii) (s : string) : list string :=
  match s with
  | EmptyString => [EmptyString]
  | String c rest =>
      if Ascii.eqb c sep then EmptyString :: string_split sep rest
      else
        match string_split sep rest with
        | piece :: pieces => String c piece :: pieces
        | [] => [String c EmptyString]
        end
  end.

(** [xs.reduce(f, init)], the callback receiving the index as well. *)
Fixpoint reduce_from {A B} (f : A -> B -> nat -> js A) (idx : nat)
    (xs : list B) (acc : A) : js A :=
  match xs with
  | [] => ret acc
  | x :: rest => let* acc' := f acc x idx in reduce_from f (S idx) rest acc'
  end.

Definition array_reduce {A B} (f : A -> B -> nat -> js A) (xs : list B)
    (init : A) : js A :=
  reduce_from f 0 xs init.

(** [xs.map(f)] *)
Fixpoint array_map {A B} (f : A -> js B) (xs : list A) : js (list B) :=
  match xs with
  | [] => ret []
  | x :: rest =>
      let* y := f x in
      let* ys := array_map f rest in
      ret (y :: ys)
  end.

(** [xs.find(p)]: the first element [p] accepts, [undefined] without one. *)
Fixpoint array_find (p : value -> bool) (xs : list value) : value :=
  match xs with
  | [] => VUndefined
  | x :: rest => if p x then x else array_find p rest
  end.

(** ** [src/getOrElse.ts] *)

Definition isValid (root : value) (field : string) (requireDefined : bool)
    : js bool :=
  if requireDefined then
    let* v := js_get root field in
    ret (strict_neq v VUndefined)
  else js_in field root.

(** The callback of the [reduce] in [getOrElse]. *)
Definition getOrElse_step (root orElse : value) (requireDefined : bool)
    (acc : value) (curr : string) (idx : nat) : js value :=
  let ptr := if Nat.eqb idx 0 then root else acc in
  let* t := typeof ptr in
  let isObject := strict_neq ptr VNull && String.eqb t "object" in
  let* ok := and_then isObject (isValid ptr curr requireDefined) in
  if ok then js_get ptr curr else ret orElse.

Definition getOrElse (root : value) (dotPath : string) (orElse : value)
    (requireDefined : bool) : js value :=
  let* t := typeof root in
  if strict_neq root VNull && String.eqb t "object" && String.eqb dotPath ""
  then ret root
  else
    array_reduce (getOrElse_step root orElse requireDefined)
                 (string_split "." dotPath) orElse.

Definition multiPathsGetOrElse (root : value) (dotPaths : list string)
    (orElse : value) : js value :=
  let* results :=
    array_map (fun p => getOrElse root p VUndefined true) dotPaths in
  let found := array_find (fun v => strict_neq v VUndefined) results in
  ret (if strict_neq found VUndefined then found else orElse).

(** The argument type [string | string[]]; [Array.isArray] tells the two. *)
Inductive dot_path : Type :=
| Path (p : string)
| Paths (ps : list string).

(** The default export. An omitted [orElse] is [VUndefined]. *)
Definition default_export (root : value) (dotPath : dot_path) (orElse : value)
    : js value :=
  match dotPath with
  | Paths ps => multiPathsGetOrElse root ps orElse
  | Path p => getOrElse root p orElse false
  end.

Definition getDefinedOrElse (root : value) (dotPath : dot_path)
    (orElse : value) : js value :=
  match dotPath with
  | Paths ps => multiPathsGetOrElse root ps orElse
  | Path p => getOrElse root p orElse true
  end.

(** ** The standard objects and object literals *)

Definition function_object (r : intrinsics) : object :=
  {| obj_class := FunctionObject; obj_own := ∅;
     obj_proto := VRef (FunctionPrototype r) |}.

(** [{k1: v1, ..., kn: vn}] *)
Definition literal (props : list (string * value)) : js value :=
  fun s =>
    alloc {| obj_class := OrdinaryObject;
             obj_own := list_to_map (prod_map id Data <$> props);
             obj_proto := VRef (ObjectPrototype (realm s)) |} s.

Definition std_realm : intrinsics :=
  {| ObjectPrototype := 1%positive; FunctionPrototype := 2%positive;
     BooleanPrototype := 3%positive; NumberPrototype := 4%positive;
     StringPrototype := 5%positive |}.

(** The methods of [Object.prototype], each a function object of its own. *)
Definition object_prototype_methods : list string :=
  ["constructor"; "hasOwnProperty"; "isPrototypeOf"; "propertyIsEnumerable";
   "toLocaleString"; "toString"; "valueOf"; "__defineGetter__";
   "__defineSetter__"; "__lookupGetter__"; "__lookupSetter__"].

Definition method_loc (i : nat) : loc := Pos.of_nat (6 + i).

(** A state with the standard prototypes. [Object.prototype] has all its
    keys. The method tables of the other four prototypes are not filled in:
    the resolver reads properties of non-callable objects only, and none of
    the objects it is given below inherits from these four. *)
Definition initial_state : state :=
  {| heap :=
       <[1%positive :=
           {| obj_class := OrdinaryObject;
              obj_own :=
                <["__proto__" := ProtoGetter]>
                  (list_to_map
                     (imap (fun i k => (k, Data (VRef (method_loc i))))
                           object_prototype_methods));
              obj_proto := VNull |}]>
       (<[2%positive :=
            {| obj_class := FunctionObject; obj_own := ∅;
               obj_proto := VRef 1%positive |}]>
       (<[3%positive :=
            {| obj_class := BooleanObject false; obj_own := ∅;
               obj_proto := VRef 1%positive |}]>
       (<[4%positive :=
            {| obj_class := NumberObject (S754_zero false); obj_own := ∅;
               obj_proto := VRef 1%positive |}]>
       (<[5%positive :=
            {| obj_class := StringObject ""; obj_own := string_own "";
               obj_proto := VRef 1%positive |}]>
       (list_to_map
          (imap (fun i (_ : string) =>
                   (method_loc i, function_object std_realm))
                object_prototype_methods))))));
     realm := std_realm |}.

(** ** The revision with the typed helpers

    The later revision of [getOrElse.ts] tests the pointer for truthiness
    ([root && typeof root === 'object']) where the first one compares it
    with [null], and adds the helpers. [isValid] is the same in both. *)

Module Revised.

Definition getOrElse_step (root orElse : value) (requireDefined : bool)
    (acc : value) (curr : string) (idx : nat) : js value :=
  let ptr := if Nat.eqb idx 0 then root else acc in
  let* t := typeof ptr in
  let isObject := ToBoolean ptr && String.eqb t "object" in
  let* ok := and_then isObject (isValid ptr curr requireDefined) in
  if ok then js_get ptr curr else ret orElse.

Definition getOrElse (root : value) (dotPath : string) (orElse : value)
    (requireDefined : bool) : js value :=
  let* t := typeof root in
  if ToBoolean root && String.eqb t "object" && String.eqb dotPath ""
  then ret root
  else
    array_reduce (getOrElse_step root orElse requireDefined)
                 (string_split "." dotPath) orElse.

Definition multiPathsGetOrElse (root : value) (dotPaths : list string)
    (orElse : value) : js value :=
  let* results :=
    array_map (fun p => getOrElse root p VUndefined true) dotPaths in
  let found := array_find (fun v => strict_neq v VUndefined) results in
  ret (if strict_neq found VUndefined then found else orElse).

Definition default_export (root : value) (dotPath : dot_path) (orElse : value)
    : js value :=
  match dotPath with
  | Paths ps => multiPathsGetOrElse root ps orElse
  | Path p => getOrElse root p orElse false
  end.

Definition getDefinedOrElse (root : value) (dotPath : dot_path)
    (orElse : value) : js value :=
  match dotPath with
  | Paths ps => multiPathsGetOrElse root ps orElse
  | Path p => getOrElse root p orElse true
  end.

Definition getBooleanOr (root : value) (dotPath : dot_path) (orElse : value)
    : js bool :=
  let* v := getDefinedOrElse root dotPath orElse in
  ret (ToBoolean v).

(** [getNumberOr] applies [Number(v)], a conversion that parses strings and
    calls into objects; it is left out. *)

Definition getObjectOr (root : value) (dotPath : dot_path) (orElse : value)
    : js value :=
  let* v := getDefinedOrElse root dotPath orElse in
  Object_ v.

(** Declared to return a [string]; the body applies [Object], as
    [getObjectOr] does. *)
Definition getStringOr (root : value) (dotPath : dot_path) (orElse : value)
    : js value :=
  let* v := getDefinedOrElse root dotPath orElse in
  Object_ v.

End Revised.

(** ** Calls on concrete payloads *)

(** [getOrElse({a: {b: 5}}, "a.b", 0)] *)
Definition scenario1 : js value :=
  let* inner := literal [("b", num 5)] in
  let* root := literal [("a", inner)] in
  getOrElse root "a.b" (num 0) false.

(** [getOrElse({a: {b: 5}}, "a.c", 0)] *)
Definition scenario2 : js value :=
  let* inner := literal [("b", num 5)] in
  let* root := literal [("a", inner)] in
  getOrElse root "a.c" (num 0) false.

(** [getOrElse({a: null}, "a.b", 0)] *)
Definition scenario3 : js value :=
  let* root := literal [("a", VNull)] in
  getOrElse root "a.b" (num 0) false.

(** A call together with the default it was given:
    [const orElse = {...}; getOrElse(root, dotPath, orElse)]. *)
Definition with_default (root : js value) (dotPath : string)
    (props : list (string * value)) : js (value * value) :=
  let* r := root in
  let* orElse := literal props in
  let* v := getOrElse r dotPath orElse false in
  ret (orElse, v).

(** [getOrElse({}, "a.b", {b: 1})] *)
Definition missing_key_call : js (value * value) :=
  with_default (literal []) "a.b" [("b", num 1)].

(** [getOrElse({a: null}, "a.b.c", {c: 7})] *)
Definition null_intermediate_call : js (value * value) :=
  with_default (literal [("a", VNull)]) "a.b.c" [("c", num 7)].

(** [getOrElse({a: 5}, "a.b.c", {c: 7})] *)
Definition wrong_shape_call : js (value * value) :=
  with_default (literal [("a", num 5)]) "a.b.c" [("c", num 7)].

(** [getStringOr({wind: {direction: "E"}}, "wind.direction")] *)
Definition wind_direction_call : js value :=
  let* wind := literal [("direction", VString "E")] in
  let* root := literal [("wind", wind)] in
  Revised.getStringOr root (Path "wind.direction") VUndefined.

(** [getOrElse({a: undefined}, dotPath, 0)] through the default export,
    [dotPath] being ["a"] or [["a"]]. *)
Definition absent_value_call (dotPath : dot_path) : js value :=
  let* root := literal [("a", VUndefined)] in
  default_export root dotPath (num 0).

(** The state after [const inner = {a: undefined}; const root = {w: inner}]:
    [inner] is at address 17 and [root] at 18. *)
Definition absent_value_state : state :=
  snd ((let* inner := literal [("a", VUndefined)] in
        literal [("w", inner)]) initial_state).

(** The state after [const root = {"": undefined}]: [root] is at address
    17. *)
Definition empty_key_state : state :=
  snd (literal [("", VUndefined)] initial_state).

(** The state after [const inner = {k: undefined}; const root = {"": inner}]:
    [inner] is at address 17 and [root] at 18. *)
Definition leading_dot_state : state :=
  snd ((let* inner := literal [("k", VUndefined)] in
        literal [("", inner)]) initial_state).

(** The state after [const root = {c: 3, temp: {celsius: 4}}]: [root] is at
    address 18. *)
Definition payload_state : state :=
  snd ((let* temp := literal [("celsius", num 4)] in
        literal [("c", num 3); ("temp", temp)]) initial_state).

(** Other addresses for the intrinsic objects. *)
Definition swapped_realm : intrinsics :=
  {| ObjectPrototype := 5%positive; FunctionPrototype := 4%positive;
     BooleanPrototype := 3%positive; NumberPrototype := 2%positive;
     StringPrototype := 1%positive |}.

(** ** [src/index.tsx]: the wind direction

    [x.includes(v)] compares with SameValueZero: [===], except that [NaN]
    equals [NaN]. *)

Definition is_nan (n : number) : bool :=
  match n with
  | S754_nan => true
  | _ => false
  end.

Definition same_value_zero (a b : value) : bool :=
  match a, b with
  | VNumber x, VNumber y => SFeqb x y || (is_nan x && is_nan y)
  | _, _ => strict_eq a b
  end.

(** [xs.includes(v)] *)
Definition array_includes (xs : list value) (v : value) : bool :=
  existsb (fun x => same_value_zero x v) xs.

(** The array [cardinalPoints]; nothing in the repository writes to it. *)
Definition cardinalPoints : list value :=
  [VString "N"; VString "E"; VString "S"; VString "W"].

(** [(maybeDir = 'N') => ...]: the default stands for an argument that is
    [undefined]. The argument is whatever the resolver found. *)
Definition getWindDirection (arg : value) : value :=
  let maybeDir := if strict_eq arg VUndefined then VString "N" else arg in
  if array_includes cardinalPoints maybeDir then maybeDir else VString "N".

(** The initialiser of [wind.direction] in the constructor of
    [WeatherState], for a payload [json]:
    [getWindDirection(getOrElse(arg.json, 'wind.direction'))]. *)
Definition WeatherState_direction (json : value) : js value :=
  let* found := default_export json (Path "wind.direction") VUndefined in
  ret (getWindDirection found).

(** The other copy of [index.tsx] that imports the default export: its
    [getWindDirection] has [''] for default. *)
Module Variant.

Definition getWindDirection (arg : value) : value :=
  let maybeDir := if strict_eq arg VUndefined then VString "" else arg in
  if array_includes cardinalPoints maybeDir then maybeDir else VString "N".

End Variant.

(** The state after [const root = {k: null, z: 0}]: [root] is at address
    17. *)
Definition null_value_state : state :=
  snd (literal [("k", VNull); ("z", num 0)] initial_state).

(** The state after [const root = {wind: {direction: "E", speed: 12}}]:
    [root] is at address 18. *)
Definition wind_state : state :=
  snd ((let* wind := literal [("direction", VString "E"); ("speed", num 12)] in
        literal [("wind", wind)]) initial_state).

(** ** The resolver as a function of the heap

    The resolver only reads the heap. What it computes is written here as
    plain functions of the heap; [getOrElse_run] and
    [multiPathsGetOrElse_run] below show that the computations return these
    values, never throw and leave the state as it was. *)

Definition isObject_in (h : gmap loc object) (v : value) : bool :=
  strict_neq v VNull && String.eqb (typeof_in h v) "object".

Definition isValid_in (h : gmap loc object) (l : loc) (field : string)
    (requireDefined : bool) : bool :=
  if requireDefined then strict_neq (Get h (deref h l) field) VUndefined
  else HasProperty h (deref h l) field.

(** One segment: the next pointer, or [orElse]. *)
Definition advance (h : gmap loc object) (orElse : value)
    (requireDefined : bool) (ptr : value) (curr : string) : value :=
  match ptr with
  | VRef l =>
      if isObject_in h ptr && isValid_in h l curr requireDefined
      then Get h (deref h l) curr
      else orElse
  | _ => orElse
  end.

Fixpoint walk (h : gmap loc object) (orElse : value) (requireDefined : bool)
    (ptr : value) (segments : list string) : value :=
  match segments with
  | [] => ptr
  | curr :: rest =>
      walk h orElse requireDefined (advance h orElse requireDefined ptr curr)
           rest
  end.

Definition resolved (h : gmap loc object) (root : value) (dotPath : string)
    (orElse : value) (requireDefined : bool) : value :=
  if isObject_in h root && String.eqb dotPath "" then root
  else
    match string_split "." dotPath with
    | [] => orElse
    | curr :: rest =>
        walk h orElse requireDefined
             (advance h orElse requireDefined root curr) rest
    end.

Definition first_defined (vs : list value) (orElse : value) : value :=
  let found := array_find (fun v => strict_neq v VUndefined) vs in
  if strict_neq found VUndefined then found else orElse.

(** The state after [const root = {}]: [root] is at address 17. *)
Definition empty_object_state : state :=
  snd (literal [] initial_state).

(** [v !== undefined ? v : orElse] *)
Definition or_default (orElse v : value) : value :=
  if strict_neq v VUndefined then v else orElse.

(** * Properties *)

(** ** Values and tests *)

Lemma strict_eq_undefined v : strict_eq v VUndefined = true <-> v = VUndefined.
Proof. destruct v; simpl; split; intros H; try discriminate; reflexivity. Qed.

Lemma strict_neq_undefined v :
  strict_neq v VUndefined = true <-> v <> VUndefined.
Proof.
  unfold strict_neq. rewrite negb_true_iff, <- not_true_iff_false.
  by rewrite strict_eq_undefined.
Qed.

Lemma strict_neq_undefined_false v :
  strict_neq v VUndefined = false <-> v = VUndefined.
Proof.
  unfold strict_neq. rewrite negb_false_iff. apply strict_eq_undefined.
Qed.

Lemma isObject_in_true h v :
  isObject_in h v = true <-> v <> VNull /\ typeof_in h v = "object".
Proof.
  unfold isObject_in. rewrite andb_true_iff, String.eqb_eq.
  destruct v; simpl; split; intros [H1 H2]; split;
    try discriminate; try done.
Qed.

Lemma isObject_in_ref h v :
  isObject_in h v = true -> exists l, v = VRef l.
Proof.
  destruct v; unfold isObject_in; simpl; try discriminate. eauto.
Qed.

Lemma isObject_in_false h v :
  isObject_in h v = false <-> v = VNull \/ typeof_in h v <> "object".
Proof.
  rewrite <- not_true_iff_false, isObject_in_true.
  split.
  - intros H. destruct (decide (v = VNull)) as [->|Hn]; [by left|].
    right. intros Ht. by apply H.
  - intros [-> | Ht] [H1 H2]; done.
Qed.

(** ** Splitting *)

Lemma string_split_nonempty sep s : string_split sep s <> [].
Proof.
  destruct s as [|c rest]; simpl; [done|].
  destruct (Ascii.eqb c sep); [done|].
  destruct (string_split sep rest); done.
Qed.

Lemma string_split_empty sep : string_split sep "" = [""].
Proof. reflexivity. Qed.

Example string_split_dots :
  string_split "." "wind.speed" = ["wind"; "speed"] /\
  string_split "." "a..b." = ["a"; ""; "b"; ""] /\
  string_split "." "." = [""; ""] /\
  string_split "." "c" = ["c"].
Proof. repeat split. Qed.

(** ** Prototype chains

    On a chain without a cycle the fuel [lookup_property] gives the search,
    the size of the heap, is never used up: more fuel finds the same. *)

Lemma chain_dom h v ls : chain h v ls -> forall l, l ∈ ls -> l ∈ dom h.
Proof.
  induction 1 as [v Hend|l o ls Hl _ IH]; intros l' Hin.
  - by apply elem_of_nil in Hin.
  - apply elem_of_cons in Hin as [->|Hin]; [|by apply IH].
    apply elem_of_dom. eauto.
Qed.

Lemma chain_length h v ls : chain h v ls -> NoDup ls -> length ls <= size h.
Proof.
  intros Hc Hnd.
  rewrite <- (size_list_to_set (C:=gset loc) ls Hnd), <- size_dom.
  apply subseteq_size. intros l Hl. apply elem_of_list_to_set in Hl.
  by eapply chain_dom.
Qed.

Lemma find_property_fuel h k v ls :
  chain h v ls ->
  forall n, length ls <= n ->
    find_property n h v k = find_property (length ls) h v k.
Proof.
  induction 1 as [v Hend|l o ls Hl _ IH]; intros n Hn.
  - destruct n as [|n]; [reflexivity|].
    destruct v as [| |b|x|str|l]; try reflexivity.
    simpl. by rewrite (Hend l eq_refl).
  - destruct n as [|n]; [simpl in Hn; lia|].
    simpl. rewrite Hl. destruct (obj_own o !! k); [reflexivity|].
    apply IH. simpl in Hn. lia.
Qed.

Lemma find_property_enough_fuel h k v ls n :
  chain h v ls -> NoDup ls -> size h <= n ->
  find_property n h v k = find_property (size h) h v k.
Proof.
  intros Hc Hnd Hn. pose proof (chain_length _ _ _ Hc Hnd) as Hlen.
  rewrite (find_property_fuel _ _ _ _ Hc n) by lia.
  by rewrite (find_property_fuel _ _ _ _ Hc (size h)) by lia.
Qed.

(** The chain of the payload [{c: 3, temp: {celsius: 4}}]: the object
    itself, then [Object.prototype]. *)
Example payload_chain :
  chain (heap payload_state) (VRef 18%positive) [18%positive; 1%positive] /\
  NoDup [18%positive; 1%positive].
Proof.
  split.
  - eapply chain_step; [vm_compute; reflexivity|].
    eapply chain_step; [vm_compute; reflexivity|].
    apply chain_end. intros l Hl. discriminate Hl.
  - apply NoDup_cons. split; [|apply NoDup_singleton].
    intros Hin. by apply list_elem_of_singleton in Hin.
Qed.

(** ** The computations return the heap functions *)

Lemma bind_run {A B} (m : js A) (k : A -> js B) s a s' :
  m s = (Normal a, s') -> bind m k s = k a s'.
Proof. intros H. unfold bind. by rewrite H. Qed.

Lemma isValid_run l field requireDefined s :
  isValid (VRef l) field requireDefined s =
  (Normal (isValid_in (heap s) l field requireDefined), s).
Proof. by destruct requireDefined. Qed.

Lemma getOrElse_step_run root orElse requireDefined acc curr idx s :
  getOrElse_step root orElse requireDefined acc curr idx s =
  (Normal (advance (heap s) orElse requireDefined
                   (if Nat.eqb idx 0 then root else acc) curr), s).
Proof.
  unfold getOrElse_step.
  generalize (if Nat.eqb idx 0 then root else acc). intros ptr.
  destruct ptr as [| |b|n|str|l]; try reflexivity.
  unfold bind, typeof, gets, advance.
  fold (isObject_in (heap s) (VRef l)).
  destruct (isObject_in (heap s) (VRef l)); simpl; [|reflexivity].
  rewrite isValid_run.
  by destruct (isValid_in (heap s) l curr requireDefined).
Qed.

Lemma reduce_from_run root orElse requireDefined segments :
  forall idx acc s,
    reduce_from (getOrElse_step root orElse requireDefined) (S idx)
                segments acc s =
    (Normal (walk (heap s) orElse requireDefined acc segments), s).
Proof.
  induction segments as [|curr rest IH]; intros idx acc s; [reflexivity|].
  cbn [reduce_from walk].
  erewrite bind_run by apply getOrElse_step_run.
  apply IH.
Qed.

Lemma reduce_from_app {A B} (f : A -> B -> nat -> js A) xs ys :
  forall idx acc s,
    reduce_from f idx (xs ++ ys) acc s =
    (let* a := reduce_from f idx xs acc in
     reduce_from f (idx + length xs) ys a) s.
Proof.
  induction xs as [|x xs IH]; intros idx acc s.
  - simpl. by rewrite Nat.add_0_r.
  - cbn [app reduce_from length]. unfold bind.
    destruct (f acc x idx s) as [[a|e] s']; [|reflexivity].
    rewrite IH. unfold bind. by rewrite Nat.add_succ_r.
Qed.

Lemma getOrElse_run root dotPath orElse requireDefined s :
  getOrElse root dotPath orElse requireDefined s =
  (Normal (resolved (heap s) root dotPath orElse requireDefined), s).
Proof.
  unfold getOrElse, resolved.
  erewrite bind_run by reflexivity.
  fold (isObject_in (heap s) root).
  destruct (isObject_in (heap s) root && String.eqb dotPath ""); [reflexivity|].
  unfold array_reduce.
  destruct (string_split "." dotPath) as [|curr rest]; [reflexivity|].
  cbn [reduce_from].
  erewrite bind_run by apply getOrElse_step_run.
  apply reduce_from_run.
Qed.

Lemma array_map_getOrElse_run root orElse requireDefined dotPaths s :
  array_map (fun p => getOrElse root p orElse requireDefined) dotPaths s =
  (Normal ((fun p => resolved (heap s) root p orElse requireDefined)
             <$> dotPaths), s).
Proof.
  induction dotPaths as [|p rest IH]; [reflexivity|].
  cbn [array_map].
  erewrite bind_run by apply getOrElse_run.
  erewrite bind_run by apply IH.
  reflexivity.
Qed.

Lemma multiPathsGetOrElse_run root dotPaths orElse s :
  multiPathsGetOrElse root dotPaths orElse s =
  (Normal (first_defined
             ((fun p => resolved (heap s) root p VUndefined true)
                <$> dotPaths) orElse), s).
Proof.
  unfold multiPathsGetOrElse.
  erewrite bind_run by apply array_map_getOrElse_run.
  reflexivity.
Qed.

(** The resolver returns normally, whatever it is given. *)
Lemma getOrElse_never_throws root dotPath orElse requireDefined s :
  exists v, getOrElse root dotPath orElse requireDefined s = (Normal v, s).
Proof. eexists. apply getOrElse_run. Qed.

Lemma multiPathsGetOrElse_never_throws root dotPaths orElse s :
  exists v, multiPathsGetOrElse root dotPaths orElse s = (Normal v, s).
Proof. eexists. apply multiPathsGetOrElse_run. Qed.

(** The revision computes the same function. *)
Lemma truthy_object h v :
  ToBoolean v && String.eqb (typeof_in h v) "object" = isObject_in h v.
Proof.
  destruct v as [| |b|n|str|l]; try reflexivity; simpl.
  - apply andb_false_r.
  - apply andb_false_r.
  - apply andb_false_r.
Qed.

Lemma Revised_getOrElse_step_run root orElse requireDefined acc curr idx s :
  Revised.getOrElse_step root orElse requireDefined acc curr idx s =
  getOrElse_step root orElse requireDefined acc curr idx s.
Proof.
  unfold Revised.getOrElse_step, getOrElse_step, bind, typeof, gets.
  by rewrite truthy_object.
Qed.

Lemma Revised_reduce_from_run root orElse requireDefined segments :
  forall idx acc s,
    reduce_from (Revised.getOrElse_step root orElse requireDefined) idx
                segments acc s =
    reduce_from (getOrElse_step root orElse requireDefined) idx
                segments acc s.
Proof.
  induction segments as [|curr rest IH]; intros idx acc s; [reflexivity|].
  cbn [reduce_from]. unfold bind.
  rewrite Revised_getOrElse_step_run.
  destruct (getOrElse_step _ _ _ _ _ _ s) as [[a|e] s']; [apply IH|reflexivity].
Qed.

Lemma Revised_getOrElse_run root dotPath orElse requireDefined s :
  Revised.getOrElse root dotPath orElse requireDefined s =
  getOrElse root dotPath orElse requireDefined s.
Proof.
  unfold Revised.getOrElse, getOrElse, bind, typeof, gets, array_reduce.
  rewrite truthy_object. fold (isObject_in (heap s) root).
  destruct (isObject_in (heap s) root && String.eqb dotPath "");
    [reflexivity|].
  apply Revised_reduce_from_run.
Qed.

Lemma Revised_multiPathsGetOrElse_run root dotPaths orElse s :
  Revised.multiPathsGetOrElse root dotPaths orElse s =
  multiPathsGetOrElse root dotPaths orElse s.
Proof.
  unfold Revised.multiPathsGetOrElse, multiPathsGetOrElse.
  assert (Hmap : forall ps s0,
    array_map (fun p => Revised.getOrElse root p VUndefined true) ps s0 =
    array_map (fun p => getOrElse root p VUndefined true) ps s0).
  { induction ps as [|p rest IH]; intros s0; [reflexivity|].
    cbn [array_map]. unfold bind.
    rewrite Revised_getOrElse_run.
    destruct (getOrElse root p VUndefined true s0) as [[a|e] s']; [|reflexivity].
    by rewrite IH. }
  unfold bind. by rewrite Hmap.
Qed.

Lemma Revised_getDefinedOrElse_run root dotPath orElse s :
  Revised.getDefinedOrElse root dotPath orElse s =
  getDefinedOrElse root dotPath orElse s.
Proof.
  destruct dotPath as [p|ps]; simpl.
  - apply Revised_getOrElse_run.
  - apply Revised_multiPathsGetOrElse_run.
Qed.

Lemma getDefinedOrElse_never_throws root dotPath orElse s :
  exists v, getDefinedOrElse root dotPath orElse s = (Normal v, s).
Proof.
  destruct dotPath as [p|ps]; simpl.
  - apply getOrElse_never_throws.
  - apply multiPathsGetOrElse_never_throws.
Qed.

(** ** Walks *)

Lemma walk_app h orElse requireDefined ptr xs ys :
  walk h orElse requireDefined ptr (xs ++ ys) =
  walk h orElse requireDefined (walk h orElse requireDefined ptr xs) ys.
Proof.
  revert ptr. induction xs as [|x xs IH]; intros ptr; [reflexivity|].
  simpl. apply IH.
Qed.

(** A default that is not a structured value stops the walk for good. *)
Lemma advance_from_unstructured h orElse requireDefined ptr curr :
  isObject_in h ptr = false ->
  advance h orElse requireDefined ptr curr = orElse.
Proof.
  intros H. destruct ptr; try reflexivity. simpl. by rewrite H.
Qed.

Lemma walk_from_unstructured_default h orElse requireDefined segments :
  isObject_in h orElse = false ->
  walk h orElse requireDefined orElse segments = orElse.
Proof.
  intros H. induction segments as [|curr rest IH]; [reflexivity|].
  simpl. by rewrite advance_from_unstructured.
Qed.

(** With the definedness policy and [undefined] as the default, a result
    other than [undefined] is the end of a walk that passed every segment:
    any other default gives the same result. *)
Lemma advance_defined_any_default h orElse ptr curr :
  advance h VUndefined true ptr curr <> VUndefined ->
  advance h orElse true ptr curr = advance h VUndefined true ptr curr.
Proof.
  destruct ptr as [| |b|n|str|l]; cbn [advance]; try done.
  destruct (isObject_in h (VRef l) && isValid_in h l curr true); done.
Qed.

Lemma walk_defined_any_default h orElse segments :
  forall ptr,
    walk h VUndefined true ptr segments <> VUndefined ->
    walk h orElse true ptr segments = walk h VUndefined true ptr segments.
Proof.
  induction segments as [|curr rest IH]; intros ptr Hdef; [reflexivity|].
  simpl in *.
  destruct (decide (advance h VUndefined true ptr curr = VUndefined))
    as [Hu|Hd].
  - rewrite Hu in Hdef.
    rewrite walk_from_unstructured_default in Hdef by reflexivity. done.
  - rewrite advance_defined_any_default by done. by apply IH.
Qed.

Lemma resolved_defined_any_default h root dotPath orElse :
  resolved h root dotPath VUndefined true <> VUndefined ->
  resolved h root dotPath orElse true = resolved h root dotPath VUndefined true.
Proof.
  unfold resolved.
  destruct (isObject_in h root && String.eqb dotPath ""); [done|].
  destruct (string_split "." dotPath) as [|curr rest]; [done|].
  intros Hdef.
  destruct (decide (advance h VUndefined true root curr = VUndefined))
    as [Hu|Hd].
  - rewrite Hu in Hdef.
    rewrite walk_from_unstructured_default in Hdef by reflexivity. done.
  - rewrite advance_defined_any_default by done.
    by apply walk_defined_any_default.
Qed.

(** ** The first defined candidate *)

Lemma first_defined_cons_defined v vs orElse :
  v <> VUndefined -> first_defined (v :: vs) orElse = v.
Proof.
  intros Hv. apply strict_neq_undefined in Hv.
  unfold first_defined. simpl. by rewrite !Hv.
Qed.

Lemma first_defined_cons_undefined vs orElse :
  first_defined (VUndefined :: vs) orElse = first_defined vs orElse.
Proof. reflexivity. Qed.

Lemma first_defined_all_undefined vs orElse :
  Forall (fun v => v = VUndefined) vs -> first_defined vs orElse = orElse.
Proof.
  induction 1 as [|v vs -> _ IH]; [reflexivity|].
  by rewrite first_defined_cons_undefined.
Qed.

Lemma first_defined_skip pre vs orElse :
  Forall (fun v => v = VUndefined) pre ->
  first_defined (pre ++ vs) orElse = first_defined vs orElse.
Proof.
  induction 1 as [|v pre -> _ IH]; [reflexivity|].
  simpl. by rewrite first_defined_cons_undefined.
Qed.

Lemma first_defined_undefined vs orElse :
  first_defined vs orElse = VUndefined -> orElse = VUndefined.
Proof.
  unfold first_defined.
  destruct (strict_neq _ VUndefined) eqn:E; [|done].
  intros Hf. rewrite Hf in E. discriminate.
Qed.

Lemma string_split_app sep q k :
  string_split sep (q +:+ String sep k) =
  (string_split sep q ++ string_split sep k)%list.
Proof.
  induction q as [|c q IH]; simpl.
  - by rewrite Ascii.eqb_refl.
  - destruct (Ascii.eqb c sep); [by rewrite IH|].
    rewrite IH.
    pose proof (string_split_nonempty sep q) as Hne.
    by destruct (string_split sep q).
Qed.

(** A path [q.k] resolves [q] and then takes one more segment. *)
Lemma resolved_snoc h root q k orElse requireDefined :
  q <> "" -> string_split "." k = [k] ->
  resolved h root (q +:+ String "." k) orElse requireDefined =
  advance h orElse requireDefined (resolved h root q orElse requireDefined) k.
Proof.
  intros Hq Hk. unfold resolved.
  assert (String.eqb q "" = false) as -> by (by destruct q).
  assert (String.eqb (q +:+ String "." k) "" = false) as -> by (by destruct q).
  rewrite !andb_false_r, string_split_app, Hk.
  pose proof (string_split_nonempty "." q) as Hne.
  destruct (string_split "." q) as [|curr rest]; [done|].
  simpl. by rewrite walk_app.
Qed.

(** * The claims *)

(** C2: with the empty path a root that is not [null] and whose [typeof] is
    ["object"] is returned as it is, under either policy and whatever the
    default; any other root gives the default, and it does so through the
    walk over the one empty segment [""] that splitting the empty path
    yields. *)
Theorem getOrElse_empty_path s root orElse requireDefined :
  string_split "." "" = [""] /\
  (root <> VNull -> typeof_in (heap s) root = "object" ->
   getOrElse root "" orElse requireDefined s = (Normal root, s)) /\
  (root = VNull \/ typeof_in (heap s) root <> "object" ->
   getOrElse root "" orElse requireDefined s =
     array_reduce (getOrElse_step root orElse requireDefined) [""] orElse s /\
   getOrElse root "" orElse requireDefined s = (Normal orElse, s)).
Proof.
  split; [reflexivity|]. split.
  - intros Hn Ht. rewrite getOrElse_run. unfold resolved.
    by rewrite (proj2 (isObject_in_true _ _) (conj Hn Ht)).
  - intros H. apply isObject_in_false in H.
    assert (getOrElse root "" orElse requireDefined s = (Normal orElse, s))
      as Hrun.
    { rewrite getOrElse_run. unfold resolved. rewrite H. simpl.
      by rewrite advance_from_unstructured. }
    split; [|exact Hrun].
    rewrite Hrun. unfold array_reduce. cbn [reduce_from].
    erewrite bind_run by apply getOrElse_step_run.
    simpl. by rewrite advance_from_unstructured.
Qed.

Lemma getOrElse_empty_path_witness :
  getOrElse (VRef 1%positive) "" (num 0) true initial_state =
    (Normal (VRef 1%positive), initial_state) /\
  getOrElse (VString "x") "" (num 0) false initial_state =
    (Normal (num 0), initial_state).
Proof.
  split.
  - apply (getOrElse_empty_path initial_state (VRef 1%positive) (num 0) true);
      [discriminate | reflexivity].
  - apply (getOrElse_empty_path initial_state (VString "x") (num 0) false).
    right. discriminate.
Defined.

(** C6: [getOrElse({a: {b: 5}}, "a.b", 0)] is [5],
    [getOrElse({a: {b: 5}}, "a.c", 0)] is [0] and
    [getOrElse({a: null}, "a.b", 0)] is [0], with the existence policy. *)
Theorem concrete_single_path_scenarios :
  fst (scenario1 initial_state) = Normal (num 5) /\
  fst (scenario2 initial_state) = Normal (num 0) /\
  fst (scenario3 initial_state) = Normal (num 0).
Proof. repeat split; vm_compute; reflexivity. Qed.

(** C10: with no candidate path at all, [multiPathsGetOrElse] returns the
    caller's default, and does not throw. *)
Theorem multiPathsGetOrElse_no_paths s root orElse :
  multiPathsGetOrElse root [] orElse s = (Normal orElse, s).
Proof. reflexivity. Qed.

(** C9: on an array of paths the default export and [getDefinedOrElse]
    return the same, both being [multiPathsGetOrElse]; the default export,
    which resolves a single path with the existence policy, therefore
    resolves the candidates of an array with the definedness policy: for
    [{a: undefined}] and the default [0] the path ["a"] gives [undefined]
    and the array [["a"]] gives [0]. *)
Theorem array_paths_share_multiPathsGetOrElse s root ps orElse :
  default_export root (Paths ps) orElse s =
    getDefinedOrElse root (Paths ps) orElse s /\
  default_export root (Paths ps) orElse s =
    multiPathsGetOrElse root ps orElse s /\
  (forall p,
     default_export root (Paths [p]) orElse s =
       (let* v := getOrElse root p VUndefined true in
        ret (if strict_neq v VUndefined then v else orElse)) s) /\
  fst (absent_value_call (Path "a") initial_state) = Normal VUndefined /\
  fst (absent_value_call (Paths ["a"]) initial_state) = Normal (num 0).
Proof.
  repeat split; try reflexivity.
  intros p. cbn [default_export].
  rewrite multiPathsGetOrElse_run.
  erewrite bind_run by apply getOrElse_run.
  unfold ret, first_defined. simpl.
  by destruct (strict_neq (resolved (heap s) root p VUndefined true) VUndefined)
    eqn:E; rewrite ?E.
Qed.

(** C8: a call of [getOrElse] or of [multiPathsGetOrElse] leaves the state,
    and so the root and everything reachable from it, as it found it; two
    calls in a row with the same arguments return the same value; and two
    calls with the same arguments in two states that hold the same heap
    return the same value. *)
Theorem resolution_is_pure root dotPath dotPaths orElse requireDefined :
  (forall s, exists v,
     getOrElse root dotPath orElse requireDefined s = (Normal v, s) /\
     (let* a := getOrElse root dotPath orElse requireDefined in
      let* b := getOrElse root dotPath orElse requireDefined in
      ret (a, b)) s = (Normal (v, v), s)) /\
  (forall s, exists w,
     multiPathsGetOrElse root dotPaths orElse s = (Normal w, s) /\
     (let* a := multiPathsGetOrElse root dotPaths orElse in
      let* b := multiPathsGetOrElse root dotPaths orElse in
      ret (a, b)) s = (Normal (w, w), s)) /\
  (forall s1 s2,
     heap s1 = heap s2 ->
     fst (getOrElse root dotPath orElse requireDefined s1) =
       fst (getOrElse root dotPath orElse requireDefined s2) /\
     fst (multiPathsGetOrElse root dotPaths orElse s1) =
       fst (multiPathsGetOrElse root dotPaths orElse s2)).
Proof.
  repeat apply conj.
  - intros s.
    destruct (getOrElse_never_throws root dotPath orElse requireDefined s)
      as [v Hv].
    exists v. split; [exact Hv|].
    by rewrite !(bind_run _ _ _ _ _ Hv).
  - intros s.
    destruct (multiPathsGetOrElse_never_throws root dotPaths orElse s)
      as [w Hw].
    exists w. split; [exact Hw|].
    by rewrite !(bind_run _ _ _ _ _ Hw).
  - intros s1 s2 Hheap.
    rewrite !getOrElse_run, !multiPathsGetOrElse_run. simpl.
    by rewrite Hheap.
Qed.

Lemma resolution_is_pure_witness :
  fst (getOrElse (VRef 18%positive) "temp.celsius" (num 0) false
                 payload_state) =
  fst (getOrElse (VRef 18%positive) "temp.celsius" (num 0) false
                 (mkState (heap payload_state) swapped_realm)).
Proof.
  exact (proj1 (proj2 (proj2 (resolution_is_pure
                         (VRef 18%positive) "temp.celsius" [] (num 0) false))
                      payload_state
                      (mkState (heap payload_state) swapped_realm)
                      eq_refl)).
Defined.

Lemma getOrElse_result root dotPath orElse requireDefined s v :
  getOrElse root dotPath orElse requireDefined s = (Normal v, s) ->
  resolved (heap s) root dotPath orElse requireDefined = v.
Proof. rewrite getOrElse_run. by intros [= ->]. Qed.

Lemma resolved_all_undefined s root (ps : list string) :
  (forall q, q ∈ ps ->
     getOrElse root q VUndefined true s = (Normal VUndefined, s)) ->
  Forall (fun v => v = VUndefined)
         ((fun p => resolved (heap s) root p VUndefined true) <$> ps).
Proof.
  intros H. apply Forall_fmap, Forall_forall. intros q Hq. simpl.
  by apply getOrElse_result, H.
Qed.

(** C3, amended: [multiPathsGetOrElse] returns the value of the first
    candidate, in order, that [getOrElse] with the definedness policy
    resolves to something other than [undefined], and that value is also
    the one the definedness policy finds with the caller's default; it
    returns the caller's default when every candidate resolves to
    [undefined]. So exchanging two candidates changes the result whenever
    both resolve, to different values, and no candidate before them
    resolves (for a list of two: whenever both resolve, to different
    values); and [undefined] comes out only when it is the caller's own
    default. *)
Theorem multiPathsGetOrElse_first_defined s root orElse :
  (forall pre p post v,
     (forall q, q ∈ pre ->
        getOrElse root q VUndefined true s = (Normal VUndefined, s)) ->
     getOrElse root p VUndefined true s = (Normal v, s) ->
     v <> VUndefined ->
     multiPathsGetOrElse root (pre ++ p :: post) orElse s = (Normal v, s) /\
     getOrElse root p orElse true s = (Normal v, s)) /\
  (forall ps,
     (forall q, q ∈ ps ->
        getOrElse root q VUndefined true s = (Normal VUndefined, s)) ->
     multiPathsGetOrElse root ps orElse s = (Normal orElse, s)) /\
  (forall pre mid post p1 p2 v1 v2,
     (forall q, q ∈ pre ->
        getOrElse root q VUndefined true s = (Normal VUndefined, s)) ->
     getOrElse root p1 VUndefined true s = (Normal v1, s) ->
     getOrElse root p2 VUndefined true s = (Normal v2, s) ->
     v1 <> VUndefined -> v2 <> VUndefined -> v1 <> v2 ->
     multiPathsGetOrElse root (pre ++ p1 :: mid ++ p2 :: post) orElse s =
       (Normal v1, s) /\
     multiPathsGetOrElse root (pre ++ p2 :: mid ++ p1 :: post) orElse s =
       (Normal v2, s) /\
     multiPathsGetOrElse root (pre ++ p1 :: mid ++ p2 :: post) orElse s <>
       multiPathsGetOrElse root (pre ++ p2 :: mid ++ p1 :: post) orElse s) /\
  (forall ps,
     multiPathsGetOrElse root ps orElse s = (Normal VUndefined, s) ->
     orElse = VUndefined).
Proof.
  assert (Hfirst : forall pre p post v,
     (forall q, q ∈ pre ->
        getOrElse root q VUndefined true s = (Normal VUndefined, s)) ->
     getOrElse root p VUndefined true s = (Normal v, s) ->
     v <> VUndefined ->
     multiPathsGetOrElse root (pre ++ p :: post) orElse s = (Normal v, s)).
  { intros pre p post v Hpre Hp Hv.
    rewrite multiPathsGetOrElse_run, fmap_app, fmap_cons.
    rewrite first_defined_skip by by apply resolved_all_undefined.
    rewrite (getOrElse_result _ _ _ _ _ _ Hp).
    by rewrite first_defined_cons_defined. }
  repeat apply conj.
  - intros pre p post v Hpre Hp Hv. split; [by apply Hfirst|].
    apply getOrElse_result in Hp.
    rewrite getOrElse_run, resolved_defined_any_default; by rewrite Hp.
  - intros ps Hps. rewrite multiPathsGetOrElse_run.
    by rewrite first_defined_all_undefined by by apply resolved_all_undefined.
  - intros pre mid post p1 p2 v1 v2 Hpre H1 H2 Hd1 Hd2 Hne.
    rewrite (Hfirst pre p1 (mid ++ p2 :: post)%list v1) by done.
    rewrite (Hfirst pre p2 (mid ++ p1 :: post)%list v2) by done.
    repeat split. intros [= E]. done.
  - intros ps. rewrite multiPathsGetOrElse_run. intros [= E].
    by apply first_defined_undefined in E.
Qed.

Lemma multiPathsGetOrElse_first_defined_witness :
  multiPathsGetOrElse (VRef 18%positive) ["x"; "c"; "temp.celsius"] (num 0)
                      payload_state = (Normal (num 3), payload_state) /\
  multiPathsGetOrElse (VRef 18%positive) ["x"; "temp.kelvin"] (num (-1))
                      payload_state = (Normal (num (-1)), payload_state) /\
  multiPathsGetOrElse (VRef 18%positive) ["c"; "temp.celsius"] (num 0)
                      payload_state <>
    multiPathsGetOrElse (VRef 18%positive) ["temp.celsius"; "c"] (num 0)
                        payload_state /\
  VUndefined = VUndefined.
Proof.
  assert (Habsent : forall q, q ∈ ["x"; "temp.kelvin"] ->
            getOrElse (VRef 18%positive) q VUndefined true payload_state =
            (Normal VUndefined, payload_state)).
  { intros q Hq. apply elem_of_cons in Hq as [->|Hq]; [reflexivity|].
    apply list_elem_of_singleton in Hq as ->. reflexivity. }
  repeat apply conj.
  - apply (proj1 (multiPathsGetOrElse_first_defined
                    payload_state (VRef 18%positive) (num 0))
                 ["x"] "c" ["temp.celsius"] (num 3)).
    + intros q Hq. apply Habsent. apply list_elem_of_singleton in Hq as ->.
      apply elem_of_cons. by left.
    + reflexivity.
    + discriminate.
  - apply (proj1 (proj2 (multiPathsGetOrElse_first_defined
                    payload_state (VRef 18%positive) (num (-1))))
                 ["x"; "temp.kelvin"] Habsent).
  - apply (proj1 (proj2 (proj2 (multiPathsGetOrElse_first_defined
                    payload_state (VRef 18%positive) (num 0))))
                 [] [] [] "c" "temp.celsius" (num 3) (num 4)).
    + intros q Hq. by apply elem_of_nil in Hq.
    + reflexivity.
    + reflexivity.
    + discriminate.
    + discriminate.
    + discriminate.
  - apply (proj2 (proj2 (proj2 (multiPathsGetOrElse_first_defined
                    payload_state (VRef 18%positive) VUndefined)))
                 ["x"]).
    reflexivity.
Defined.

(** C3 as stated fails for candidates that follow one that resolves: on
    [{c: 3, temp: {celsius: 4}}] the paths ["c"] and ["temp.celsius"]
    resolve to [3] and [4], and the lists [["temp", "c", "temp.celsius"]]
    and [["temp", "temp.celsius", "c"]] give the same result, the object
    [temp]. *)
Lemma swap_after_defined_candidate_counterexample :
  getOrElse (VRef 18%positive) "c" VUndefined true payload_state =
    (Normal (num 3), payload_state) /\
  getOrElse (VRef 18%positive) "temp.celsius" VUndefined true payload_state =
    (Normal (num 4), payload_state) /\
  num 3 <> num 4 /\ num 3 <> VUndefined /\ num 4 <> VUndefined /\
  multiPathsGetOrElse (VRef 18%positive) ["temp"; "c"; "temp.celsius"]
                      (num 0) payload_state =
    (Normal (VRef 17%positive), payload_state) /\
  multiPathsGetOrElse (VRef 18%positive) ["temp"; "temp.celsius"; "c"]
                      (num 0) payload_state =
    (Normal (VRef 17%positive), payload_state).
Proof. repeat split; try discriminate; vm_compute; reflexivity. Qed.

Lemma Get_defined_HasProperty h o k :
  Get h o k <> VUndefined -> HasProperty h o k = true.
Proof.
  unfold Get, HasProperty. by destruct (lookup_property h o k).
Qed.

(** C4, amended: on an object, a key that passes the definedness test
    passes the existence test. A key that is present with the value
    [undefined] on an object passes the existence test and fails the
    definedness test; when it is the last segment of a path that is not
    empty, and that object is the pointer the walk has when it comes to
    this segment (the root for a path of one segment, else what the
    [reduce] over the segments before it has accumulated), [getOrElse]
    returns the default with [requireDefined = true] and [undefined], the
    value of the key, with [requireDefined = false]. *)
Theorem definedness_stronger_than_existence s l k :
  (isValid (VRef l) k true s = (Normal true, s) ->
   isValid (VRef l) k false s = (Normal true, s)) /\
  (js_in k (VRef l) s = (Normal true, s) ->
   js_get (VRef l) k s = (Normal VUndefined, s) ->
   typeof_in (heap s) (VRef l) = "object" ->
   isValid (VRef l) k false s = (Normal true, s) /\
   isValid (VRef l) k true s = (Normal false, s) /\
   (forall root dotPath orElse requireDefined before acc,
      dotPath <> "" ->
      string_split "." dotPath = (before ++ [k])%list ->
      array_reduce (getOrElse_step root orElse requireDefined) before
                   orElse s = (Normal acc, s) ->
      (if Nat.eqb (length before) 0 then root else acc) = VRef l ->
      getOrElse root dotPath orElse requireDefined s =
        (Normal (if requireDefined then orElse else VUndefined), s))).
Proof.
  split.
  - rewrite !isValid_run. intros [= H]. f_equal. f_equal.
    apply Get_defined_HasProperty. by apply strict_neq_undefined.
  - intros Hin Hget Ht.
    assert (HasProperty (heap s) (deref (heap s) l) k = true) as Hhas
      by (by injection Hin).
    assert (Get (heap s) (deref (heap s) l) k = VUndefined) as Hval
      by (by injection Hget).
    assert (isObject_in (heap s) (VRef l) = true) as Hobj
      by (by apply isObject_in_true).
    assert (forall orElse,
              advance (heap s) orElse true (VRef l) k = orElse) as Htrue.
    { intros orElse. simpl. rewrite Hval. simpl. by rewrite andb_false_r. }
    assert (forall orElse,
              advance (heap s) orElse false (VRef l) k = VUndefined) as Hfalse.
    { intros orElse. simpl. by rewrite Hobj, Hhas, Hval. }
    rewrite !isValid_run. simpl. rewrite Hhas, Hval.
    repeat apply conj; try reflexivity.
    intros root dotPath orElse requireDefined before acc Hne Hsplit Hbefore
           Hptr.
    unfold getOrElse. erewrite bind_run by reflexivity.
    assert (String.eqb dotPath "" = false) as -> by (by apply String.eqb_neq).
    rewrite andb_false_r, Hsplit. unfold array_reduce in *.
    rewrite reduce_from_app. erewrite bind_run by exact Hbefore.
    cbn [reduce_from]. erewrite bind_run by apply getOrElse_step_run.
    cbn [Nat.add]. rewrite Hptr. unfold ret. f_equal. f_equal.
    destruct requireDefined; [apply Htrue | apply Hfalse].
Qed.

Lemma definedness_stronger_than_existence_witness :
  (getOrElse (VRef 17%positive) "a" (num 0) true absent_value_state =
     (Normal (num 0), absent_value_state) /\
   getOrElse (VRef 17%positive) "a" (num 0) false absent_value_state =
     (Normal VUndefined, absent_value_state)) /\
  (getOrElse (VRef 18%positive) "w.a" (num 0) true absent_value_state =
     (Normal (num 0), absent_value_state) /\
   getOrElse (VRef 18%positive) "w.a" (num 0) false absent_value_state =
     (Normal VUndefined, absent_value_state)) /\
  (getOrElse (VRef 18%positive) ".k" (num 0) true leading_dot_state =
     (Normal (num 0), leading_dot_state) /\
   getOrElse (VRef 18%positive) ".k" (num 0) false leading_dot_state =
     (Normal VUndefined, leading_dot_state)) /\
  isValid (VRef 18%positive) "w" false absent_value_state =
    (Normal true, absent_value_state).
Proof.
  pose proof (proj2 (definedness_stronger_than_existence
                       absent_value_state 17%positive "a")
                    eq_refl eq_refl eq_refl) as (_ & _ & Ha).
  pose proof (proj2 (definedness_stronger_than_existence
                       leading_dot_state 17%positive "k")
                    eq_refl eq_refl eq_refl) as (_ & _ & Hk).
  repeat apply conj.
  - apply (Ha (VRef 17%positive) "a" (num 0) true [] (num 0));
      [discriminate | reflexivity | reflexivity | reflexivity].
  - apply (Ha (VRef 17%positive) "a" (num 0) false [] (num 0));
      [discriminate | reflexivity | reflexivity | reflexivity].
  - apply (Ha (VRef 18%positive) "w.a" (num 0) true ["w"] (VRef 17%positive));
      [discriminate | reflexivity | reflexivity | reflexivity].
  - apply (Ha (VRef 18%positive) "w.a" (num 0) false ["w"]
              (VRef 17%positive));
      [discriminate | reflexivity | reflexivity | reflexivity].
  - apply (Hk (VRef 18%positive) ".k" (num 0) true [""] (VRef 17%positive));
      [discriminate | reflexivity | reflexivity | reflexivity].
  - apply (Hk (VRef 18%positive) ".k" (num 0) false [""] (VRef 17%positive));
      [discriminate | reflexivity | reflexivity | reflexivity].
  - apply (proj1 (definedness_stronger_than_existence
                    absent_value_state 18%positive "w")).
    reflexivity.
Defined.

(** C4 as stated fails for a segment that is not the last: in
    [{a: undefined}] the key ["a"] is present with the value [undefined],
    and [getOrElse({a: undefined}, "a.b", 0)] with the existence policy is
    the default [0], not [undefined]. It fails for the empty path as well:
    in [{"": undefined}] the key [""], the one segment of the empty path,
    is present with the value [undefined], and
    [getOrElse({"": undefined}, "", 0)] is the root under both policies,
    neither the default nor [undefined]. *)
Lemma absent_value_before_last_segment_counterexample :
  (js_in "a" (VRef 17%positive) absent_value_state =
     (Normal true, absent_value_state) /\
   js_get (VRef 17%positive) "a" absent_value_state =
     (Normal VUndefined, absent_value_state) /\
   getOrElse (VRef 17%positive) "a.b" (num 0) false absent_value_state =
     (Normal (num 0), absent_value_state) /\
   num 0 <> VUndefined) /\
  (string_split "." "" = [""] /\
   js_in "" (VRef 17%positive) empty_key_state =
     (Normal true, empty_key_state) /\
   js_get (VRef 17%positive) "" empty_key_state =
     (Normal VUndefined, empty_key_state) /\
   getOrElse (VRef 17%positive) "" (num 0) true empty_key_state =
     (Normal (VRef 17%positive), empty_key_state) /\
   getOrElse (VRef 17%positive) "" (num 0) false empty_key_state =
     (Normal (VRef 17%positive), empty_key_state) /\
   VRef 17%positive <> num 0 /\ VRef 17%positive <> VUndefined).
Proof. repeat split; try discriminate; vm_compute; reflexivity. Qed.

(** What [getOrElse] does keep: a default that is not a structured value
    comes out whenever the pointer then tested is not an object or the
    segment is not valid on it, whatever the segments that follow. *)
Lemma walk_short_circuit h orElse requireDefined ptr curr rest :
  isObject_in h orElse = false ->
  advance h orElse requireDefined ptr curr = orElse ->
  walk h orElse requireDefined ptr (curr :: rest) = orElse.
Proof.
  intros Hd Hfail. simpl. rewrite Hfail.
  by apply walk_from_unstructured_default.
Qed.

Lemma getOrElse_unstructured_root s root dotPath orElse requireDefined :
  isObject_in (heap s) root = false ->
  isObject_in (heap s) orElse = false ->
  getOrElse root dotPath orElse requireDefined s = (Normal orElse, s).
Proof.
  intros Hr Hd. rewrite getOrElse_run. unfold resolved. rewrite Hr. simpl.
  pose proof (string_split_nonempty "." dotPath) as Hne.
  destruct (string_split "." dotPath) as [|curr rest]; [done|].
  rewrite advance_from_unstructured by done.
  by rewrite walk_from_unstructured_default.
Qed.

Lemma getOrElse_step_fails root orElse requireDefined acc curr idx s :
  let ptr := if Nat.eqb idx 0 then root else acc in
  ptr = VNull \/ typeof_in (heap s) ptr <> "object" \/
    isValid ptr curr requireDefined s = (Normal false, s) ->
  getOrElse_step root orElse requireDefined acc curr idx s =
    (Normal orElse, s).
Proof.
  intros ptr Hfail. rewrite getOrElse_step_run. fold ptr. f_equal. f_equal.
  destruct (isObject_in (heap s) ptr) eqn:Hobj.
  - apply isObject_in_true in Hobj as Hobj'. destruct Hobj' as [Hn Ht].
    destruct Hfail as [?|[?|Hinv]]; [done|done|].
    destruct (isObject_in_ref _ _ Hobj) as [l ->].
    rewrite isValid_run in Hinv. injection Hinv as Hinv.
    cbn [advance]. by rewrite Hinv, andb_false_r.
  - by apply advance_from_unstructured.
Qed.

(** When the segment [curr] of the path makes the step return the default,
    the call returns the default if [curr] is the last segment or the
    default is not a structured value. *)
Lemma getOrElse_short_circuit s root dotPath orElse requireDefined
    pre curr post acc :
  dotPath <> "" ->
  string_split "." dotPath = (pre ++ curr :: post)%list ->
  array_reduce (getOrElse_step root orElse requireDefined) pre orElse s =
    (Normal acc, s) ->
  getOrElse_step root orElse requireDefined acc curr (length pre) s =
    (Normal orElse, s) ->
  post = [] \/ orElse = VNull \/ typeof_in (heap s) orElse <> "object" ->
  getOrElse root dotPath orElse requireDefined s = (Normal orElse, s).
Proof.
  intros Hne Hsplit Hpre Hstep Hkeep.
  unfold getOrElse. erewrite bind_run by reflexivity.
  assert (String.eqb dotPath "" = false) as -> by (by apply String.eqb_neq).
  rewrite andb_false_r, Hsplit. unfold array_reduce in *.
  rewrite reduce_from_app. erewrite bind_run by exact Hpre.
  cbn [reduce_from]. simpl. erewrite bind_run by exact Hstep.
  rewrite reduce_from_run. f_equal. f_equal.
  destruct Hkeep as [->|Hd]; [reflexivity|].
  by apply walk_from_unstructured_default, isObject_in_false.
Qed.

(** What it does not keep: when the first segment fails on the root and the
    default is an object that has the second segment, the call returns
    what the default holds there. *)
Lemma getOrElse_continues_in_default s l d k1 k2 orElse_k2 :
  k1 <> "" -> string_split "." k2 = [k2] ->
  string_split "." k1 = [k1] ->
  js_in k1 (VRef l) s = (Normal false, s) ->
  typeof_in (heap s) (VRef d) = "object" ->
  js_in k2 (VRef d) s = (Normal true, s) ->
  js_get (VRef d) k2 s = (Normal orElse_k2, s) ->
  getOrElse (VRef l) (k1 +:+ String "." k2) (VRef d) false s =
    (Normal orElse_k2, s).
Proof.
  intros Hk1 Hs2 Hs1 Hmiss Ht Hin Hget.
  injection Hmiss as Hmiss. injection Hin as Hin. injection Hget as Hget.
  rewrite getOrElse_run, (resolved_snoc _ _ _ _ _ _ Hk1 Hs2).
  assert (resolved (heap s) (VRef l) k1 (VRef d) false = VRef d) as ->.
  { unfold resolved.
    assert (String.eqb k1 "" = false) as -> by (by apply String.eqb_neq).
    rewrite andb_false_r, Hs1. cbn [walk advance isValid_in].
    by rewrite Hmiss, andb_false_r. }
  assert (isObject_in (heap s) (VRef d) = true) as Hobj
    by (by apply isObject_in_true).
  cbn [advance isValid_in]. by rewrite Hobj, Hin, Hget.
Qed.

(** C1: the walk does not keep the default once a segment has failed: the
    next segment is looked up in the default itself.
    [getOrElse({}, "a.b", {b: 1})] is [1], and
    [getOrElse({a: null}, "a.b.c", {c: 7})], where [root.a] is [null], is
    [7]; in both the default is the object at address 18. *)
Theorem getOrElse_walks_into_default :
  fst (missing_key_call initial_state) = Normal (VRef 18%positive, num 1) /\
  fst (null_intermediate_call initial_state) =
    Normal (VRef 18%positive, num 7).
Proof. split; vm_compute; reflexivity. Qed.

(** C7: [getOrElse] returns normally on every root, path, default and
    flag, and leaves the state alone; what it returns after a missing key,
    a [null] intermediate or a value of the wrong shape is not always the
    default: [getOrElse({}, "a.b", {b: 1})] is [1], and both
    [getOrElse({a: null}, "a.b.c", {c: 7})] and
    [getOrElse({a: 5}, "a.b.c", {c: 7})] are [7]. *)
Theorem getOrElse_total_not_always_default :
  (forall s root dotPath orElse requireDefined,
     exists v, getOrElse root dotPath orElse requireDefined s = (Normal v, s)) /\
  fst (missing_key_call initial_state) = Normal (VRef 18%positive, num 1) /\
  fst (null_intermediate_call initial_state) =
    Normal (VRef 18%positive, num 7) /\
  fst (wrong_shape_call initial_state) = Normal (VRef 18%positive, num 7).
Proof.
  split; [intros; apply getOrElse_never_throws|].
  repeat split; vm_compute; reflexivity.
Qed.

Lemma Object__returns_object v s :
  exists l s', Object_ v s = (Normal (VRef l), s').
Proof. destruct v; simpl; unfold alloc, ret; eauto. Qed.

(** C5: [getStringOr] never returns a string. It returns what
    [Object(...)] returns, a reference to an object:
    [getStringOr({wind: {direction: "E"}}, "wind.direction")] is a new
    String object holding ["E"], whose [typeof] is ["object"]. *)
Theorem getStringOr_returns_object :
  (forall s root dotPath orElse,
     exists l s',
       Revised.getStringOr root dotPath orElse s = (Normal (VRef l), s') /\
       typeof_in (heap s') (VRef l) <> "string") /\
  (exists l s',
     wind_direction_call initial_state = (Normal (VRef l), s') /\
     typeof_in (heap s') (VRef l) = "object" /\
     obj_class (deref (heap s') l) = StringObject "E").
Proof.
  split.
  - intros s root dotPath orElse. unfold Revised.getStringOr.
    destruct (getDefinedOrElse_never_throws root dotPath orElse s) as [v Hv].
    rewrite <- Revised_getDefinedOrElse_run in Hv.
    rewrite (bind_run _ _ _ _ _ Hv).
    destruct (Object__returns_object v s) as (l & s' & Hobj).
    exists l, s'. split; [exact Hobj|].
    simpl. by destruct (is_callable (deref (heap s') l)).
  - exists 19%positive, (snd (wind_direction_call initial_state)).
    repeat split; vm_compute; reflexivity.
Qed.

(** * Further properties of the resolver *)

(** X1: the two revisions of [getOrElse.ts] compute the same: testing the
    pointer for truthiness or comparing it with [null] makes no difference
    under [typeof ptr === 'object'], for [getOrElse],
    [multiPathsGetOrElse], the default export and [getDefinedOrElse], on
    every input and in every state. *)
Theorem revisions_agree root dotPath dotPaths shape orElse requireDefined s :
  Revised.getOrElse root dotPath orElse requireDefined s =
    getOrElse root dotPath orElse requireDefined s /\
  Revised.multiPathsGetOrElse root dotPaths orElse s =
    multiPathsGetOrElse root dotPaths orElse s /\
  Revised.default_export root shape orElse s =
    default_export root shape orElse s /\
  Revised.getDefinedOrElse root shape orElse s =
    getDefinedOrElse root shape orElse s.
Proof.
  repeat apply conj.
  - apply Revised_getOrElse_run.
  - apply Revised_multiPathsGetOrElse_run.
  - destruct shape as [p|ps]; simpl.
    + apply Revised_getOrElse_run.
    + apply Revised_multiPathsGetOrElse_run.
  - apply Revised_getDefinedOrElse_run.
Qed.

Lemma resolved_nonempty_path h ptr p orElse requireDefined :
  p <> "" ->
  resolved h ptr p orElse requireDefined =
  walk h orElse requireDefined ptr (string_split "." p).
Proof.
  intros Hp. unfold resolved.
  assert (String.eqb p "" = false) as -> by (by apply String.eqb_neq).
  rewrite andb_false_r.
  pose proof (string_split_nonempty "." p) as Hne.
  by destruct (string_split "." p).
Qed.

Lemma append_nonempty q k : q <> "" -> q +:+ k <> "".
Proof. by destruct q. Qed.

(** X2: paths compose. For non-empty [q] and [p], resolving [q.p] is
    resolving [p] from what [q] resolves to, with the same default and
    policy. *)
Theorem getOrElse_compose root q p orElse requireDefined s :
  q <> "" -> p <> "" ->
  getOrElse root (q +:+ "." +:+ p) orElse requireDefined s =
  (let* ptr := getOrElse root q orElse requireDefined in
   getOrElse ptr p orElse requireDefined) s.
Proof.
  intros Hq Hp.
  erewrite (bind_run (getOrElse root q orElse requireDefined))
    by apply getOrElse_run.
  rewrite !getOrElse_run. f_equal. f_equal.
  change ("." +:+ p) with (String "." p).
  rewrite (resolved_nonempty_path _ _ _ _ _ (append_nonempty q _ Hq)).
  rewrite (resolved_nonempty_path _ _ _ _ _ Hq).
  rewrite (resolved_nonempty_path _ _ _ _ _ Hp).
  by rewrite string_split_app, walk_app.
Qed.

Lemma getOrElse_compose_witness :
  getOrElse (VRef 18%positive) "temp.celsius" (num 0) false payload_state =
  (let* ptr := getOrElse (VRef 18%positive) "temp" (num 0) false in
   getOrElse ptr "celsius" (num 0) false) payload_state.
Proof.
  apply (getOrElse_compose (VRef 18%positive) "temp" "celsius" (num 0) false
                           payload_state); discriminate.
Defined.

Lemma advance_defined_or_default h orElse ptr curr :
  advance h orElse true ptr curr = VUndefined -> orElse = VUndefined.
Proof.
  destruct ptr as [| |b|n|str|l]; cbn [advance]; try done.
  destruct (isObject_in h (VRef l)); simpl; [|done].
  destruct (strict_neq (Get h (deref h l) curr) VUndefined) eqn:E; [|done].
  intros Hu. rewrite Hu in E. discriminate.
Qed.

Lemma walk_defined_or_default h orElse segments :
  forall ptr,
    segments <> [] ->
    walk h orElse true ptr segments = VUndefined -> orElse = VUndefined.
Proof.
  induction segments as [|curr rest IH]; intros ptr Hne Hu; [done|].
  destruct rest as [|next rest].
  - by apply advance_defined_or_default in Hu.
  - by apply (IH (advance h orElse true ptr curr)).
Qed.

Lemma resolved_defined_or_default h root dotPath orElse :
  resolved h root dotPath orElse true = VUndefined -> orElse = VUndefined.
Proof.
  unfold resolved.
  destruct (isObject_in h root && String.eqb dotPath "") eqn:E.
  - apply andb_true_iff in E as [E _].
    apply isObject_in_ref in E as [l ->]. done.
  - pose proof (string_split_nonempty "." dotPath) as Hne.
    destruct (string_split "." dotPath) as [|curr rest]; [done|].
    apply (walk_defined_or_default h orElse (curr :: rest) root). done.
Qed.

(** X3: with a default other than [undefined], [getDefinedOrElse] never
    returns [undefined], for a single path or an array of paths: it
    returns normally, with the state as it was, a value that is not
    [undefined]. *)
Theorem getDefinedOrElse_defined root shape orElse s :
  orElse <> VUndefined ->
  exists v,
    getDefinedOrElse root shape orElse s = (Normal v, s) /\ v <> VUndefined.
Proof.
  intros Hd. destruct shape as [p|ps]; simpl.
  - rewrite getOrElse_run. eexists. split; [reflexivity|].
    intros Hu. by apply resolved_defined_or_default in Hu.
  - rewrite multiPathsGetOrElse_run. eexists. split; [reflexivity|].
    intros Hu. by apply first_defined_undefined in Hu.
Qed.

Lemma getDefinedOrElse_defined_witness :
  exists v,
    getDefinedOrElse (VRef 17%positive) (Path "a") (num 0)
                     absent_value_state = (Normal v, absent_value_state) /\
    v <> VUndefined.
Proof.
  apply (getDefinedOrElse_defined (VRef 17%positive) (Path "a") (num 0)
                                  absent_value_state).
  discriminate.
Defined.

Lemma advance_fail_any_default h orElse requireDefined ptr curr :
  (forall d, advance h d requireDefined ptr curr =
             advance h orElse requireDefined ptr curr) \/
  forall d, advance h d requireDefined ptr curr = d.
Proof.
  destruct ptr as [| |b|n|str|l]; cbn [advance]; try by right.
  destruct (isObject_in h (VRef l) && isValid_in h l curr requireDefined);
    [by left | by right].
Qed.

Lemma walk_default_or_independent h orElse requireDefined segments :
  isObject_in h orElse = false ->
  forall ptr,
    walk h orElse requireDefined ptr segments = orElse \/
    forall d, walk h d requireDefined ptr segments =
              walk h orElse requireDefined ptr segments.
Proof.
  intros Hd. induction segments as [|curr rest IH]; intros ptr;
    [by right|].
  cbn [walk].
  destruct (advance_fail_any_default h orElse requireDefined ptr curr)
    as [Hsame|Hfail].
  - destruct (IH (advance h orElse requireDefined ptr curr)) as [Hl|Hr];
      [by left|].
    right. intros d. by rewrite Hsame, Hr.
  - left. rewrite Hfail. by apply walk_from_unstructured_default.
Qed.

(** X4: with a default that is not an object (a number, a string, a
    boolean, [null], [undefined], a function), the result of [getOrElse]
    is either that default or a value the default has no part in: every
    other default gives the same value. *)
Theorem getOrElse_default_or_independent root dotPath orElse requireDefined
    s v :
  orElse = VNull \/ typeof_in (heap s) orElse <> "object" ->
  getOrElse root dotPath orElse requireDefined s = (Normal v, s) ->
  v = orElse \/
  forall d, getOrElse root dotPath d requireDefined s = (Normal v, s).
Proof.
  intros Hd Hrun. apply isObject_in_false in Hd.
  apply getOrElse_result in Hrun. subst v.
  assert (resolved (heap s) root dotPath orElse requireDefined = orElse \/
          forall d, resolved (heap s) root dotPath d requireDefined =
                    resolved (heap s) root dotPath orElse requireDefined)
    as [Hl|Hr].
  { unfold resolved.
    destruct (isObject_in (heap s) root && String.eqb dotPath "");
      [by right|].
    destruct (string_split "." dotPath) as [|curr rest]; [by left|].
    apply (walk_default_or_independent _ _ _ (curr :: rest) Hd root). }
  - by left.
  - right. intros d. by rewrite getOrElse_run, Hr.
Qed.

Lemma getOrElse_default_or_independent_witness :
  (num 4 = num 0 \/
   forall d, getOrElse (VRef 18%positive) "temp.celsius" d false
                       payload_state = (Normal (num 4), payload_state)) /\
  (num 0 = num 0 \/
   forall d, getOrElse (VRef 18%positive) "temp.kelvin.x" d false
                       payload_state = (Normal (num 0), payload_state)).
Proof.
  split.
  - apply (getOrElse_default_or_independent
             (VRef 18%positive) "temp.celsius" (num 0) false payload_state);
      [right; discriminate | reflexivity].
  - apply (getOrElse_default_or_independent
             (VRef 18%positive) "temp.kelvin.x" (num 0) false payload_state);
      [right; discriminate | reflexivity].
Defined.

Lemma first_defined_default_or_found vs orElse :
  first_defined vs orElse = orElse \/
  (first_defined vs orElse ∈ vs /\ first_defined vs orElse <> VUndefined).
Proof.
  induction vs as [|v vs IH]; [by left|].
  destruct (decide (v = VUndefined)) as [->|Hv].
  - rewrite first_defined_cons_undefined.
    destruct IH as [Hl|[Hin Hdef]]; [by left|].
    right. split; [by apply elem_of_cons; right | done].
  - rewrite first_defined_cons_defined by done.
    right. split; [by apply elem_of_cons; left | done].
Qed.

(** X5: the result of [multiPathsGetOrElse] is the caller's default or the
    value one of the candidates resolves to with the definedness policy
    under every default: nothing of the default, whatever it is, shows
    through but the default itself. *)
Theorem multiPathsGetOrElse_default_or_found root dotPaths orElse s v :
  multiPathsGetOrElse root dotPaths orElse s = (Normal v, s) ->
  v = orElse \/
  (v <> VUndefined /\
   exists p, p ∈ dotPaths /\
     forall d, getOrElse root p d true s = (Normal v, s)).
Proof.
  rewrite multiPathsGetOrElse_run. intros [= <-].
  destruct (first_defined_default_or_found
              ((fun p => resolved (heap s) root p VUndefined true)
                 <$> dotPaths) orElse) as [Hl|[Hin Hdef]]; [by left|].
  right. split; [done|].
  apply list_elem_of_fmap in Hin as (p & Hp & Hin).
  exists p. split; [done|]. intros d.
  rewrite getOrElse_run, resolved_defined_any_default; by rewrite <- Hp.
Qed.

Lemma multiPathsGetOrElse_default_or_found_witness :
  num 3 = VRef 17%positive \/
  (num 3 <> VUndefined /\
   exists p, p ∈ ["x"; "c"] /\
     forall d, getOrElse (VRef 18%positive) p d true payload_state =
               (Normal (num 3), payload_state)).
Proof.
  apply (multiPathsGetOrElse_default_or_found
           (VRef 18%positive) ["x"; "c"] (VRef 17%positive) payload_state).
  reflexivity.
Defined.

Lemma first_defined_app xs ys orElse :
  first_defined (xs ++ ys) orElse =
  (if strict_neq (first_defined xs VUndefined) VUndefined
   then first_defined xs VUndefined
   else first_defined ys orElse).
Proof.
  induction xs as [|x xs IH]; [reflexivity|].
  destruct (decide (x = VUndefined)) as [->|Hx].
  - simpl. by rewrite !first_defined_cons_undefined.
  - cbn [app]. rewrite !first_defined_cons_defined by done.
    by rewrite (proj2 (strict_neq_undefined x) Hx).
Qed.

Lemma array_map_app_run root (ps qs : list string) s :
  (fun p => resolved (heap s) root p VUndefined true) <$> (ps ++ qs)%list =
  (((fun p => resolved (heap s) root p VUndefined true) <$> ps) ++
   ((fun p => resolved (heap s) root p VUndefined true) <$> qs))%list.
Proof. apply fmap_app. Qed.

(** X6: fallback lists chain. Resolving over [ps] followed by [qs] is
    resolving over [ps] and, only when that finds nothing, over [qs] with
    the caller's default. *)
Theorem multiPathsGetOrElse_app root ps qs orElse s :
  multiPathsGetOrElse root (ps ++ qs) orElse s =
  (let* found := multiPathsGetOrElse root ps VUndefined in
   if strict_neq found VUndefined then ret found
   else multiPathsGetOrElse root qs orElse) s.
Proof.
  erewrite (bind_run (multiPathsGetOrElse root ps VUndefined))
    by apply multiPathsGetOrElse_run.
  rewrite multiPathsGetOrElse_run, array_map_app_run, first_defined_app.
  destruct (strict_neq _ VUndefined); [reflexivity|].
  by rewrite multiPathsGetOrElse_run.
Qed.

(** X7: a root that is not an object ([null], [undefined], a number, a
    string, a boolean, a function) has no path into it, not even into
    what the language would find on a primitive such as the length of a
    string: [multiPathsGetOrElse] returns the caller's default for every
    list of paths and every default, and [getOrElse] returns the default
    for every path when the default is not an object either. *)
Theorem non_object_root_gives_default root s :
  root = VNull \/ typeof_in (heap s) root <> "object" ->
  (forall dotPaths orElse,
     multiPathsGetOrElse root dotPaths orElse s = (Normal orElse, s)) /\
  (forall dotPath orElse requireDefined,
     orElse = VNull \/ typeof_in (heap s) orElse <> "object" ->
     getOrElse root dotPath orElse requireDefined s = (Normal orElse, s)).
Proof.
  intros Hroot. apply isObject_in_false in Hroot. split.
  - intros dotPaths orElse. rewrite multiPathsGetOrElse_run.
    rewrite first_defined_all_undefined; [done|].
    apply Forall_fmap, Forall_forall. intros p _. simpl.
    apply getOrElse_result with (s := s).
    by apply getOrElse_unstructured_root.
  - intros dotPath orElse requireDefined Hd.
    apply getOrElse_unstructured_root; [done|].
    by apply isObject_in_false.
Qed.

Lemma non_object_root_gives_default_witness :
  multiPathsGetOrElse (VString "abc") ["length"; "0"] (num 7) initial_state =
    (Normal (num 7), initial_state) /\
  getOrElse (VString "abc") "length" (num 0) false initial_state =
    (Normal (num 0), initial_state).
Proof.
  pose proof (non_object_root_gives_default (VString "abc") initial_state)
    as H.
  destruct H as [Hmulti Hone]; [right; discriminate|].
  split.
  - apply Hmulti.
  - apply Hone. right. discriminate.
Defined.

(** X8: what an object holds under a key is what the resolver returns for
    that key, under both policies, through an array of paths and through
    [getDefinedOrElse], as long as it is not [undefined]: [null], [false],
    [0] and [''] are found like any other value and the default is not
    consulted; [getBooleanOr] then answers with the truthiness of the value
    found. *)
Theorem held_value_is_found s l k v :
  typeof_in (heap s) (VRef l) = "object" ->
  k <> "" -> string_split "." k = [k] ->
  js_get (VRef l) k s = (Normal v, s) -> v <> VUndefined ->
  forall orElse,
    (forall requireDefined,
       getOrElse (VRef l) k orElse requireDefined s = (Normal v, s)) /\
    multiPathsGetOrElse (VRef l) [k] orElse s = (Normal v, s) /\
    (forall shape, shape = Path k \/ shape = Paths [k] ->
       getDefinedOrElse (VRef l) shape orElse s = (Normal v, s) /\
       Revised.getBooleanOr (VRef l) shape orElse s =
         (Normal (ToBoolean v), s)).
Proof.
  intros Ht Hk Hsplit Hget Hv orElse.
  injection Hget as Hget.
  assert (isObject_in (heap s) (VRef l) = true) as Hobj
    by (by apply isObject_in_true).
  assert (forall d rd, resolved (heap s) (VRef l) k d rd = v) as Hres.
  { intros d rd. rewrite resolved_nonempty_path by done.
    rewrite Hsplit. cbn [walk advance]. rewrite Hobj.
    assert (isValid_in (heap s) l k rd = true) as ->; [|by simpl].
    destruct rd; simpl.
    - rewrite Hget. by apply strict_neq_undefined.
    - apply Get_defined_HasProperty. by rewrite Hget. }
  assert (multiPathsGetOrElse (VRef l) [k] orElse s = (Normal v, s))
    as Hmulti.
  { rewrite multiPathsGetOrElse_run. simpl. rewrite Hres.
    by rewrite first_defined_cons_defined. }
  repeat apply conj.
  - intros rd. by rewrite getOrElse_run, Hres.
  - exact Hmulti.
  - intros shape Hshape.
    assert (getDefinedOrElse (VRef l) shape orElse s = (Normal v, s))
      as Hdef.
    { destruct Hshape as [-> | ->]; simpl; [|exact Hmulti].
      by rewrite getOrElse_run, Hres. }
    split; [exact Hdef|].
    unfold Revised.getBooleanOr.
    rewrite <- Revised_getDefinedOrElse_run in Hdef.
    by rewrite (bind_run _ _ _ _ _ Hdef).
Qed.

Lemma held_value_is_found_witness :
  getOrElse (VRef 17%positive) "k" (num 1) true null_value_state =
    (Normal VNull, null_value_state) /\
  Revised.getBooleanOr (VRef 17%positive) (Paths ["z"]) (VBoolean true)
                       null_value_state = (Normal false, null_value_state).
Proof.
  split.
  - apply (held_value_is_found null_value_state 17%positive "k" VNull
             eq_refl ltac:(discriminate) eq_refl eq_refl ltac:(discriminate)
             (num 1)).
  - apply (held_value_is_found null_value_state 17%positive "z" (num 0)
             eq_refl ltac:(discriminate) eq_refl eq_refl ltac:(discriminate)
             (VBoolean true)).
    by right.
Defined.

Lemma alloc_fresh o s :
  exists l,
    alloc o s = (Normal (VRef l), mkState (<[l := o]> (heap s)) (realm s)) /\
    heap s !! l = None.
Proof.
  exists (fresh (dom (heap s))). split; [reflexivity|].
  apply not_elem_of_dom, is_fresh.
Qed.

(** X9: [getObjectOr] always returns a reference to an object and writes
    to no object that exists. When the definedness policy resolves to an
    object it is that very object, and the state is unchanged; otherwise
    the result is a new object at an address that was free, the wrapper of
    the primitive found (an empty object for [undefined] and [null]),
    every object of the heap being as before. *)
Theorem getObjectOr_frame root shape orElse s :
  exists v l s',
    getDefinedOrElse root shape orElse s = (Normal v, s) /\
    Revised.getObjectOr root shape orElse s = (Normal (VRef l), s') /\
    realm s' = realm s /\
    (forall l0 o, heap s !! l0 = Some o -> heap s' !! l0 = Some o) /\
    (v = VRef l /\ s' = s \/
     (forall l0, v <> VRef l0) /\ heap s !! l = None /\
     heap s' = <[l := wrapper (realm s) v]> (heap s)).
Proof.
  destruct (getDefinedOrElse_never_throws root shape orElse s) as [v Hv].
  pose proof Hv as Hrev. rewrite <- Revised_getDefinedOrElse_run in Hrev.
  exists v. unfold Revised.getObjectOr. rewrite (bind_run _ _ _ _ _ Hrev).
  assert ((exists l0, v = VRef l0) \/ forall l0, v <> VRef l0)
    as [[l0 ->]|Hprim].
  { destruct v; try (right; discriminate). left. eauto. }
  - exists l0, s. repeat split; try done. by left.
  - destruct (alloc_fresh (wrapper (realm s) v) s) as (l & Halloc & Hfree).
    exists l, (mkState (<[l := wrapper (realm s) v]> (heap s)) (realm s)).
    repeat split; try done.
    + destruct v; try exact Halloc. by destruct (Hprim l0).
    + intros l0 o Hl0. simpl. rewrite lookup_insert_ne; [done|].
      intros ->. by rewrite Hfree in Hl0.
    + right. by repeat split.
Qed.

Lemma concat_cons_char sep c x xs :
  String.concat sep (String c x :: xs) = String c (String.concat sep (x :: xs)).
Proof. by destruct xs. Qed.

Lemma concat_cons_empty sep xs :
  xs <> [] ->
  String.concat (String sep "") ("" :: xs) =
  String sep (String.concat (String sep "") xs).
Proof. by destruct xs. Qed.

Lemma string_split_concat sep s :
  String.concat (String sep "") (string_split sep s) = s.
Proof.
  induction s as [|c rest IH]; [reflexivity|].
  pose proof (string_split_nonempty sep rest) as Hne.
  cbn [string_split]. destruct (Ascii.eqb c sep) eqn:E.
  - apply Ascii.eqb_eq in E as ->.
    by rewrite concat_cons_empty, IH.
  - destruct (string_split sep rest) as [|piece pieces]; [done|].
    by rewrite concat_cons_char, IH.
Qed.

Lemma string_split_no_separator sep s :
  forall seg, seg ∈ string_split sep s ->
    forall c, c ∈ list_ascii_of_string seg -> c <> sep.
Proof.
  induction s as [|c rest IH]; intros seg Hseg x Hx.
  - apply list_elem_of_singleton in Hseg as ->. by apply elem_of_nil in Hx.
  - cbn [string_split] in Hseg. destruct (Ascii.eqb c sep) eqn:E.
    + apply elem_of_cons in Hseg as [->|Hseg].
      * by apply elem_of_nil in Hx.
      * by apply (IH seg).
    + pose proof (string_split_nonempty sep rest) as Hne.
      destruct (string_split sep rest) as [|piece pieces]; [done|].
      apply elem_of_cons in Hseg as [->|Hseg].
      * cbn [list_ascii_of_string] in Hx.
        apply elem_of_cons in Hx as [->|Hx].
        -- by apply Ascii.eqb_neq.
        -- apply (IH piece); [apply elem_of_cons; by left | done].
      * apply (IH seg); [apply elem_of_cons; by right | done].
Qed.

Lemma string_split_length sep s :
  length (string_split sep s) =
  S (length (List.filter (fun c => Ascii.eqb c sep) (list_ascii_of_string s))).
Proof.
  induction s as [|c rest IH]; [reflexivity|].
  pose proof (string_split_nonempty sep rest) as Hne.
  cbn [string_split list_ascii_of_string List.filter].
  destruct (Ascii.eqb c sep); cbn [length]; [by rewrite IH|].
  destruct (string_split sep rest) as [|piece pieces]; [done|].
  exact IH.
Qed.

(** X10: the segments [getOrElse] walks are the dot-free pieces of the
    path: joined again with dots they give the path back, none of them
    contains a dot, and there is one more of them than the path has dots,
    so at least one. *)
Theorem path_segments dotPath :
  String.concat "." (string_split "." dotPath) = dotPath /\
  (forall seg, seg ∈ string_split "." dotPath ->
     forall c, c ∈ list_ascii_of_string seg -> c <> "."%char) /\
  length (string_split "." dotPath) =
    S (length (List.filter (fun c => Ascii.eqb c ".")
                           (list_ascii_of_string dotPath))).
Proof.
  repeat apply conj.
  - apply (string_split_concat "." dotPath).
  - apply string_split_no_separator.
  - apply string_split_length.
Qed.

(** ** The wind direction *)

Lemma same_value_zero_string str v :
  same_value_zero (VString str) v = true <-> v = VString str.
Proof.
  destruct v as [| |b|n|x|l]; cbn [same_value_zero strict_eq];
    split; intros H; try discriminate.
  - by apply String.eqb_eq in H as ->.
  - injection H as ->. apply String.eqb_refl.
Qed.

Lemma cardinalPoints_strings x :
  x ∈ cardinalPoints -> exists str, x = VString str.
Proof.
  unfold cardinalPoints. rewrite !elem_of_cons, elem_of_nil.
  intros [->|[->|[->|[->|[]]]]]; eauto.
Qed.

Lemma array_includes_cardinalPoints v :
  array_includes cardinalPoints v = true <-> v ∈ cardinalPoints.
Proof.
  unfold array_includes. rewrite existsb_exists. split.
  - intros (x & Hin & Hsame). apply list_elem_of_In in Hin.
    destruct (cardinalPoints_strings x Hin) as [str ->].
    by apply same_value_zero_string in Hsame as ->.
  - intros Hin. exists v. split; [by apply list_elem_of_In|].
    destruct (cardinalPoints_strings v Hin) as [str ->].
    by apply same_value_zero_string.
Qed.

Lemma getWindDirection_range v : getWindDirection v ∈ cardinalPoints.
Proof.
  unfold getWindDirection.
  destruct (array_includes cardinalPoints _) eqn:E.
  - by apply array_includes_cardinalPoints.
  - apply elem_of_cons. by left.
Qed.

Lemma getWindDirection_fixes c :
  c ∈ cardinalPoints -> getWindDirection c = c.
Proof.
  intros Hc. unfold getWindDirection.
  destruct (cardinalPoints_strings c Hc) as [str ->]. cbn [strict_eq].
  by rewrite (proj2 (array_includes_cardinalPoints _) Hc).
Qed.

Lemma getWindDirection_other v :
  v ∉ cardinalPoints -> getWindDirection v = VString "N".
Proof.
  intros Hv. unfold getWindDirection.
  destruct (strict_eq v VUndefined); [reflexivity|].
  destruct (array_includes cardinalPoints v) eqn:E; [|done].
  by apply array_includes_cardinalPoints in E.
Qed.

(** X11: [getWindDirection] maps every value to one of the four cardinal
    points: a cardinal point to itself, anything else ([undefined], another
    string, a number, an object, a String object holding ["E"]) to ["N"];
    applying it twice is applying it once; and the copy with the default
    [''] computes the same. *)
Theorem getWindDirection_cardinal v :
  getWindDirection v ∈ cardinalPoints /\
  (v ∈ cardinalPoints -> getWindDirection v = v) /\
  (v ∉ cardinalPoints -> getWindDirection v = VString "N") /\
  getWindDirection (getWindDirection v) = getWindDirection v /\
  Variant.getWindDirection v = getWindDirection v.
Proof.
  split; [apply getWindDirection_range|].
  split; [apply getWindDirection_fixes|].
  split; [apply getWindDirection_other|].
  split; [apply getWindDirection_fixes, getWindDirection_range|].
  unfold Variant.getWindDirection, getWindDirection.
  destruct (strict_eq v VUndefined) eqn:Eu; reflexivity.
Qed.

Lemma getWindDirection_cardinal_witness :
  getWindDirection (VString "E") = VString "E" /\
  getWindDirection (VRef 19%positive) = VString "N".
Proof.
  split.
  - apply (proj1 (proj2 (getWindDirection_cardinal (VString "E")))).
    apply elem_of_cons. right. apply elem_of_cons. by left.
  - apply (proj1 (proj2 (proj2 (getWindDirection_cardinal
                                  (VRef 19%positive))))).
    intros Hin. by destruct (cardinalPoints_strings _ Hin).
Defined.

(** X12: for every payload, whatever its shape, the constructor of
    [WeatherState] computes a wind direction without throwing and without
    touching the payload, and the direction is one of the four cardinal
    points: the payload's [wind.direction] when that is one of the four
    strings, ["N"] otherwise. *)
Theorem WeatherState_direction_cardinal json s :
  exists d,
    WeatherState_direction json s = (Normal d, s) /\
    d ∈ cardinalPoints /\
    (forall found,
       getOrElse json "wind.direction" VUndefined false s =
         (Normal found, s) ->
       (found ∈ cardinalPoints -> d = found) /\
       (found ∉ cardinalPoints -> d = VString "N")).
Proof.
  unfold WeatherState_direction. cbn [default_export].
  destruct (getOrElse_never_throws json "wind.direction" VUndefined false s)
    as [v Hv].
  exists (getWindDirection v). rewrite (bind_run _ _ _ _ _ Hv).
  split; [reflexivity|]. split; [apply getWindDirection_range|].
  intros found Hfound. rewrite Hv in Hfound. injection Hfound as <-.
  split; [apply getWindDirection_fixes | apply getWindDirection_other].
Qed.

Lemma WeatherState_direction_cardinal_witness :
  WeatherState_direction (VRef 18%positive) wind_state =
    (Normal (VString "E"), wind_state).
Proof.
  destruct (WeatherState_direction_cardinal (VRef 18%positive) wind_state)
    as (d & Hrun & _ & Hfound).
  destruct (Hfound (VString "E") eq_refl) as [Hd _].
  rewrite Hrun, Hd; [reflexivity|].
  apply elem_of_cons. right. apply elem_of_cons. by left.
Defined.

(** ** Dots at the ends of a path, and the two policies *)

(** X13: a dot at an end of a path is not dropped: it stands for the key
    [""]. For a non-empty [p], [.p] looks the key [""] up on the root and
    resolves [p] from there; for a non-empty [q], [q.] resolves [q] and
    looks the key [""] up on the result, as one more step of the walk. *)
Theorem getOrElse_edge_dots root q p orElse requireDefined s :
  (p <> "" ->
   getOrElse root ("." +:+ p) orElse requireDefined s =
   (let* ptr := getOrElse_step root orElse requireDefined orElse "" 0 in
    getOrElse ptr p orElse requireDefined) s) /\
  (q <> "" ->
   getOrElse root (q +:+ ".") orElse requireDefined s =
   (let* ptr := getOrElse root q orElse requireDefined in
    getOrElse_step root orElse requireDefined ptr "" 1) s).
Proof.
  split.
  - intros Hp.
    erewrite (bind_run (getOrElse_step _ _ _ _ _ _))
      by apply getOrElse_step_run.
    rewrite !getOrElse_run. f_equal. f_equal.
    change ("." +:+ p) with (String "." p).
    rewrite (resolved_nonempty_path _ _ (String "." p)) by done.
    rewrite (resolved_nonempty_path _ _ p) by done.
    reflexivity.
  - intros Hq.
    erewrite (bind_run (getOrElse root q orElse requireDefined))
      by apply getOrElse_run.
    rewrite getOrElse_run, getOrElse_step_run. f_equal. f_equal.
    apply (resolved_snoc _ _ _ "" _ _ Hq). reflexivity.
Qed.

Lemma getOrElse_edge_dots_witness :
  getOrElse (VRef 18%positive) ".temp" (num 0) false payload_state =
    (Normal (num 0), payload_state) /\
  getOrElse (VRef 18%positive) "temp." (num 0) false payload_state =
    (Normal (num 0), payload_state).
Proof.
  destruct (getOrElse_edge_dots (VRef 18%positive) "temp" "temp" (num 0)
                                false payload_state) as [Hlead Htrail].
  split.
  - etransitivity; [apply Hlead; discriminate | reflexivity].
  - etransitivity; [apply Htrail; discriminate | reflexivity].
Defined.

Lemma advance_policies h orElse ptr curr :
  advance h orElse true ptr curr =
  or_default orElse (advance h orElse false ptr curr).
Proof.
  unfold or_default.
  destruct ptr as [| |b|n|str|l]; cbn [advance];
    try (by destruct (strict_neq orElse VUndefined) eqn:E;
         [|apply strict_neq_undefined_false in E]).
  destruct (isObject_in h (VRef l)); simpl;
    [|by destruct (strict_neq orElse VUndefined) eqn:E;
      [|apply strict_neq_undefined_false in E]].
  destruct (strict_neq (Get h (deref h l) curr) VUndefined) eqn:Eg.
  - rewrite Get_defined_HasProperty by by apply strict_neq_undefined.
    by rewrite Eg.
  - destruct (HasProperty h (deref h l) curr); [by rewrite Eg|].
    by destruct (strict_neq orElse VUndefined) eqn:E;
      [|apply strict_neq_undefined_false in E].
Qed.

Lemma advance_policies_step h orElse pf curr :
  isObject_in h orElse = false ->
  advance h orElse true (or_default orElse pf) curr =
  or_default orElse (advance h orElse false pf curr).
Proof.
  intros Hd. unfold or_default at 1.
  destruct (strict_neq pf VUndefined) eqn:E; [apply advance_policies|].
  apply strict_neq_undefined_false in E as ->.
  rewrite advance_from_unstructured by done. cbn [advance].
  unfold or_default.
  by destruct (strict_neq orElse VUndefined) eqn:E;
    [|apply strict_neq_undefined_false in E].
Qed.

Lemma walk_policies h orElse segments :
  isObject_in h orElse = false ->
  forall pf,
    walk h orElse true (or_default orElse pf) segments =
    or_default orElse (walk h orElse false pf segments).
Proof.
  intros Hd. induction segments as [|curr rest IH]; intros pf; [reflexivity|].
  cbn [walk]. by rewrite advance_policies_step, IH.
Qed.

Lemma resolved_policies h root dotPath orElse :
  isObject_in h orElse = false ->
  resolved h root dotPath orElse true =
  or_default orElse (resolved h root dotPath orElse false).
Proof.
  intros Hd. unfold resolved.
  destruct (isObject_in h root && String.eqb dotPath "") eqn:E.
  - apply andb_true_iff in E as [E _].
    by apply isObject_in_ref in E as [l ->].
  - destruct (string_split "." dotPath) as [|curr rest].
    + unfold or_default.
      by destruct (strict_neq orElse VUndefined) eqn:Eo;
        [|apply strict_neq_undefined_false in Eo].
    + by rewrite advance_policies, walk_policies.
Qed.

(** X14: with a default that is not an object, the definedness policy is
    the existence policy followed by the replacement of [undefined] by the
    default: [getOrElse(root, p, d, true)] is what
    [getOrElse(root, p, d, false)] returns, or [d] when that is
    [undefined]. *)
Theorem definedness_is_existence_then_default root dotPath orElse s :
  orElse = VNull \/ typeof_in (heap s) orElse <> "object" ->
  getOrElse root dotPath orElse true s =
  (let* v := getOrElse root dotPath orElse false in
   ret (if strict_neq v VUndefined then v else orElse)) s.
Proof.
  intros Hd. apply isObject_in_false in Hd.
  erewrite (bind_run (getOrElse root dotPath orElse false))
    by apply getOrElse_run.
  rewrite getOrElse_run. unfold ret. f_equal. f_equal.
  by apply resolved_policies.
Qed.

Lemma definedness_is_existence_then_default_witness :
  getOrElse (VRef 17%positive) "a" (num 0) true absent_value_state =
  (let* v := getOrElse (VRef 17%positive) "a" (num 0) false in
   ret (if strict_neq v VUndefined then v else num 0)) absent_value_state.
Proof.
  apply (definedness_is_existence_then_default
           (VRef 17%positive) "a" (num 0) absent_value_state).
  right. discriminate.
Defined.

Lemma walk_fails_or_succeeds h requireDefined segments :
  forall ptr,
    (forall d, isObject_in h d = false ->
       walk h d requireDefined ptr segments = d) \/
    (exists v, forall d, walk h d requireDefined ptr segments = v).
Proof.
  induction segments as [|curr rest IH]; intros ptr; [right; by exists ptr|].
  cbn [walk].
  destruct (advance_fail_any_default h VUndefined requireDefined ptr curr)
    as [Hsame|Hfail].
  - destruct (IH (advance h VUndefined requireDefined ptr curr))
      as [Hl|[v Hv]].
    + left. intros d Hd. rewrite Hsame. by apply Hl.
    + right. exists v. intros d. by rewrite Hsame.
  - left. intros d Hd. rewrite Hfail.
    by apply walk_from_unstructured_default.
Qed.

Lemma resolved_fails_or_succeeds h root dotPath requireDefined :
  (forall d, isObject_in h d = false ->
     resolved h root dotPath d requireDefined = d) \/
  (exists v, forall d, resolved h root dotPath d requireDefined = v).
Proof.
  unfold resolved.
  destruct (isObject_in h root && String.eqb dotPath "");
    [right; by exists root|].
  destruct (string_split "." dotPath) as [|curr rest]; [by left|].
  apply (walk_fails_or_succeeds h requireDefined (curr :: rest) root).
Qed.

(** X15: what the definedness policy finds, the existence policy finds
    too, whatever the default: when [getOrElse(root, p, undefined, true)]
    is not [undefined], [getOrElse(root, p, d, false)] and
    [getOrElse(root, p, d, true)] return that same value for every [d]. *)
Theorem defined_value_found_by_both_policies root dotPath s v :
  getOrElse root dotPath VUndefined true s = (Normal v, s) ->
  v <> VUndefined ->
  forall orElse requireDefined,
    getOrElse root dotPath orElse requireDefined s = (Normal v, s).
Proof.
  intros Hrun Hv orElse requireDefined.
  apply getOrElse_result in Hrun. rewrite getOrElse_run. f_equal. f_equal.
  destruct requireDefined.
  - rewrite resolved_defined_any_default; by rewrite Hrun.
  - assert (resolved (heap s) root dotPath VUndefined false = v) as Hex.
    { rewrite resolved_policies in Hrun by reflexivity.
      unfold or_default in Hrun.
      destruct (strict_neq _ VUndefined); [done|]. by destruct Hv. }
    destruct (resolved_fails_or_succeeds (heap s) root dotPath false)
      as [Hfail|[w Hw]].
    + rewrite Hfail in Hex by reflexivity. by destruct Hv.
    + by rewrite Hw, <- (Hw VUndefined).
Qed.

Lemma defined_value_found_by_both_policies_witness :
  getOrElse (VRef 18%positive) "temp.celsius" (VRef 17%positive) false
            payload_state = (Normal (num 4), payload_state).
Proof.
  apply (defined_value_found_by_both_policies
           (VRef 18%positive) "temp.celsius" payload_state (num 4));
    [reflexivity | discriminate].
Defined.

(** X16: with a default that is not an object, an array of one path and
    the path alone give the same through [getDefinedOrElse]. *)
Theorem single_path_array_is_the_path root p orElse s :
  orElse = VNull \/ typeof_in (heap s) orElse <> "object" ->
  getDefinedOrElse root (Paths [p]) orElse s =
  getDefinedOrElse root (Path p) orElse s.
Proof.
  intros Hd. apply isObject_in_false in Hd. cbn [getDefinedOrElse].
  rewrite multiPathsGetOrElse_run, getOrElse_run. f_equal. f_equal.
  cbn [fmap list_fmap].
  destruct (resolved_fails_or_succeeds (heap s) root p true)
    as [Hfail|[v Hv]].
  - rewrite (Hfail orElse Hd), (Hfail VUndefined eq_refl).
    apply first_defined_all_undefined. by repeat constructor.
  - rewrite !Hv. apply first_defined_cons_defined.
    intros ->. pose proof (Hv VNull) as Hnull.
    by apply resolved_defined_or_default in Hnull.
Qed.

Lemma single_path_array_is_the_path_witness :
  getDefinedOrElse (VRef 18%positive) (Paths ["temp.kelvin"]) (num 0)
                   payload_state =
  getDefinedOrElse (VRef 18%positive) (Path "temp.kelvin") (num 0)
                   payload_state.
Proof.
  apply (single_path_array_is_the_path
           (VRef 18%positive) "temp.kelvin" (num 0) payload_state).
  right. discriminate.
Defined.

(** ** Inherited keys *)

Lemma getOrElse_one_segment s l k v :
  typeof_in (heap s) (VRef l) = "object" ->
  k <> "" -> string_split "." k = [k] ->
  js_get (VRef l) k s = (Normal v, s) -> v <> VUndefined ->
  forall orElse requireDefined,
    getOrElse (VRef l) k orElse requireDefined s = (Normal v, s).
Proof.
  intros Ht Hk Hsplit Hget Hv orElse requireDefined.
  injection Hget as Hget.
  assert (isObject_in (heap s) (VRef l) = true) as Hobj
    by (by apply isObject_in_true).
  rewrite getOrElse_run, resolved_nonempty_path, Hsplit by done.
  cbn [walk advance]. rewrite Hobj.
  assert (isValid_in (heap s) l k requireDefined = true) as ->;
    [|by rewrite Hget].
  destruct requireDefined; simpl.
  - rewrite Hget. by apply strict_neq_undefined.
  - apply Get_defined_HasProperty. by rewrite Hget.
Qed.

(** X17: the resolver sees inherited keys. A key that an object does not
    have itself but that its prototype holds with a value other than
    [undefined] resolves to that value under both policies, not to the
    default: on an ordinary object [constructor] or [toString] are found. *)
Theorem inherited_key_is_found s l o p po k v :
  heap s !! l = Some o -> obj_class o <> FunctionObject ->
  obj_own o !! k = None -> obj_proto o = VRef p ->
  heap s !! p = Some po -> obj_own po !! k = Some (Data v) ->
  v <> VUndefined -> k <> "" -> string_split "." k = [k] ->
  forall orElse requireDefined,
    getOrElse (VRef l) k orElse requireDefined s = (Normal v, s).
Proof.
  intros Hl Hclass Hown Hproto Hp Hk Hv Hne Hsplit orElse requireDefined.
  assert (typeof_in (heap s) (VRef l) = "object") as Ht.
  { unfold typeof_in, deref, is_callable. rewrite Hl. simpl.
    by destruct (obj_class o). }
  assert (js_get (VRef l) k s = (Normal v, s)) as Hget.
  { unfold js_get, gets, Get, lookup_property, deref. rewrite Hl. simpl.
    rewrite Hown, Hproto.
    destruct (size (heap s)) as [|n] eqn:Hsize.
    - apply map_size_empty_iff in Hsize. rewrite Hsize in Hp.
      by rewrite lookup_empty in Hp.
    - simpl. by rewrite Hp, Hk. }
  apply (getOrElse_one_segment s l k v Ht Hne Hsplit Hget Hv).
Qed.

Lemma inherited_key_is_found_witness :
  getOrElse (VRef 17%positive) "toString" (num 0) false empty_object_state =
    (Normal (VRef 11%positive), empty_object_state).
Proof.
  apply (inherited_key_is_found
           empty_object_state 17%positive
           (deref (heap empty_object_state) 17%positive)
           1%positive
           (deref (heap empty_object_state) 1%positive)
           "toString" (VRef 11%positive));
    try reflexivity; discriminate.
Defined.
